(** * Trace-context propagation of the SvelteKit SDK

    A shallow embedding of
      - packages/utils/src/tracing.ts      (traceparent parsing, header injection),
      - packages/sveltekit/src/server/handle.ts (sentryHandle),
      - packages/sveltekit/src/client/load.ts   (wrapLoadWithSentry and the
        instrumented fetch),
    followed by the properties proved about them.

    JavaScript strings are [string]; the regular-expression engine works on
    their characters ([list ascii]).  Plain JavaScript objects used as maps
    are [gmap string _]; a property bound to [undefined] is a key of the map
    whose value is the [undefined] constructor of the value type.  Functions
    that may throw return an [Outcome]. *)

From Stdlib Require Import String Ascii List NArith Lia.
From stdpp Require Import base option gmap strings list fin_maps.

Import ListNotations.
Local Open Scope string_scope.
Local Open Scope list_scope.

(* ===================================================================== *)
(** * Regular expressions with capture groups                            *)
(* ===================================================================== *)

(** The fragment of JavaScript regular expressions that the sources use,
    matched the way the engine does: left to right, greedy, backtracking
    into the shorter alternative when the rest of the pattern fails. *)
Module RegExp.

(** Character classes. *)
Definition code (a : ascii) : N := N_of_ascii a.

(** [[ \t]] *)
Definition blank (a : ascii) : bool :=
  (code a =? 32)%N || (code a =? 9)%N.

(** [\s], restricted to one-byte code units: tab, line feed, vertical tab,
    form feed, carriage return, space and no-break space. *)
Definition space (a : ascii) : bool :=
  ((9 <=? code a)%N && (code a <=? 13)%N) || (code a =? 32)%N || (code a =? 160)%N.

(** [[0-9a-f]] *)
Definition hex (a : ascii) : bool :=
  ((48 <=? code a)%N && (code a <=? 57)%N) || ((97 <=? code a)%N && (code a <=? 102)%N).

(** [[01]] *)
Definition bit (a : ascii) : bool :=
  (code a =? 48)%N || (code a =? 49)%N.

(** [-] *)
Definition dash (a : ascii) : bool := (code a =? 45)%N.

Inductive re : Type :=
| Chr (p : ascii -> bool)            (* one character of a class *)
| Rep (n : nat) (p : ascii -> bool)  (* class{n} *)
| StarC (p : ascii -> bool)          (* class*, greedy *)
| Opt (r : re)                       (* r?, greedy *)
| Cat (r1 r2 : re)                   (* r1 r2 *)
| Grp (i : nat) (r : re)             (* the i-th capturing group *)
| End.                               (* $ *)

(** The array a successful match returns, without its entry 0: entry [i]
    is the text of group [i], or [None] (undefined) when the group did not
    take part in the match. *)
Record groups : Type := Groups {
  group1 : option (list ascii);
  group2 : option (list ascii);
  group3 : option (list ascii)
}.

Definition no_groups : groups := Groups None None None.

Definition set_group (i : nat) (x : list ascii) (g : groups) : groups :=
  match i with
  | 1 => Groups (Some x) (group2 g) (group3 g)
  | 2 => Groups (group1 g) (Some x) (group3 g)
  | 3 => Groups (group1 g) (group2 g) (Some x)
  | _ => g
  end.

(** Record the text of a group when it took part in the match. *)
Definition set_opt_group (i : nat) (o : option (list ascii)) (g : groups) : groups :=
  match o with
  | Some x => set_group i x g
  | None => g
  end.

(** [rep_match p n s]: what is left of [s] after exactly [n] characters of
    class [p], if [s] starts with that many. *)
Fixpoint rep_match (p : ascii -> bool) (n : nat) (s : list ascii) : option (list ascii) :=
  match n with
  | O => Some s
  | S n' =>
      match s with
      | a :: s' => if p a then rep_match p n' s' else None
      | [] => None
      end
  end.

(** [star_match p s k]: take as many characters of class [p] as there are,
    and give back one at a time while the continuation [k] fails. *)
Fixpoint star_match {A : Type} (p : ascii -> bool) (s : list ascii)
         (k : list ascii -> option A) : option A :=
  match s with
  | a :: s' =>
      if p a then
        match star_match p s' k with
        | Some r => Some r
        | None => k s
        end
      else k s
  | [] => k []
  end.

(** [starts_outside p y]: [y] does not start with a character of class [p]. *)
Definition starts_outside (p : ascii -> bool) (y : list ascii) : Prop :=
  match y with
  | a :: _ => p a = false
  | [] => True
  end.

(** The text consumed between the input [s] and its suffix [s']. *)
Definition consumed (s s' : list ascii) : list ascii :=
  take (length s - length s') s.

(** The matcher, in continuation-passing style: [k] is the rest of the
    pattern.  [None] is a failed match. *)
Fixpoint run (r : re) (s : list ascii) (g : groups)
         (k : list ascii -> groups -> option groups) : option groups :=
  match r with
  | Chr p =>
      match s with
      | a :: s' => if p a then k s' g else None
      | [] => None
      end
  | Rep n p =>
      match rep_match p n s with
      | Some s' => k s' g
      | None => None
      end
  | StarC p => star_match p s (fun s' => k s' g)
  | Opt r' =>
      match run r' s g k with
      | Some res => Some res
      | None => k s g
      end
  | Cat r1 r2 => run r1 s g (fun s1 g1 => run r2 s1 g1 k)
  | Grp i r' => run r' s g (fun s' g' => k s' (set_group i (consumed s s') g'))
  | End =>
      match s with
      | [] => k [] g
      | _ :: _ => None
      end
  end.

(** [str.match(r)] for a pattern that starts with [^] and has no flags:
    only a match at index 0 is possible. *)
Definition match_anchored (r : re) (s : list ascii) : option groups :=
  run r s no_groups (fun _ g => Some g).

(** Declarative meaning of a pattern: [sem r s s' g g'] when [r] can match
    the part of [s] before its suffix [s'], turning the groups [g] into
    [g']. *)
Fixpoint sem (r : re) (s s' : list ascii) (g g' : groups) : Prop :=
  match r with
  | Chr p => exists a, s = a :: s' /\ p a = true /\ g' = g
  | Rep n p => exists x, s = x ++ s' /\ length x = n /\ forallb p x = true /\ g' = g
  | StarC p => exists x, s = x ++ s' /\ forallb p x = true /\ g' = g
  | Opt r' => (s' = s /\ g' = g) \/ sem r' s s' g g'
  | Cat r1 r2 => exists s1 g1, sem r1 s s1 g g1 /\ sem r2 s1 s' g1 g'
  | Grp i r' => exists x g1, s = x ++ s' /\ sem r' s s' g g1 /\ g' = set_group i x g1
  | End => s = [] /\ s' = [] /\ g' = g
  end.

End RegExp.



(* ===================================================================== *)
(** * Data shared by the packages                                        *)
(* ===================================================================== *)

(** [Partial<DynamicSamplingContext>]: a mapping from keys to strings. *)
Abbreviation DynamicSamplingContext := (gmap string string).

(** [TraceparentData] of @sentry/types; [None] is an absent (undefined)
    property. *)
Record TraceparentData : Type := {
  traceId : option string;
  parentSampled : option bool;
  parentSpanId : option string
}.

Definition no_traceparent : TraceparentData :=
  {| traceId := None; parentSampled := None; parentSpanId := None |}.

Record TransactionMetadata : Type := {
  source : string;
  dynamicSamplingContext : option DynamicSamplingContext
}.

(** The context object handed to [trace].  [continued] holds the three
    properties that spreading a [TraceparentData] into the literal copies
    (all absent when nothing is spread). *)
Record TransactionContext : Type := {
  op : string;
  name : string;
  status : option string;
  continued : TraceparentData;
  metadata : option TransactionMetadata
}.

Record Transaction : Type := {
  getDynamicSamplingContext : DynamicSamplingContext
}.

(** A span object: the results of its methods and the properties read by
    the sources, the context it was started from and the status it has when
    it is created or finished. *)
Record Span : Type := {
  spanId : string;
  toTraceparent : string;
  transaction : option Transaction;
  spanContext : TransactionContext;
  spanStatus : option string
}.

(** The fetch API's [Headers] class, by the header list behind an object.
    [append] adds an entry to the list and [get] combines the values of a
    name; the list is not what iterating over the object shows, and nothing
    below depends on the place of an entry in it. *)
Definition Headers : Type := list (string * string).

Definition Headers_append (h : Headers) (key value : string) : Headers :=
  h ++ [(key, value)].

Definition Headers_get (h : Headers) (key : string) : option string :=
  match filter (fun kv => kv.1 = key) h with
  | [] => None
  | l => Some (String.concat ", " (l.*2))
  end.

(** A value of a plain header object: [string[] | string | undefined]. *)
Inductive HeaderValue : Type :=
| HString (s : string)
| HArray (l : list string)
| HUndefined.

(** The shapes a header container comes in. *)
Inductive HeaderContainer : Type :=
| HeadersObject (h : Headers)                    (* a [Headers] instance *)
| PairArray (l : list (string * string))         (* [Array<[string, string]>] *)
| PlainObject (m : gmap string HeaderValue).     (* [Record<string, ...>] *)

Record Request : Type := {
  url : string;
  method : string;
  headers : Headers
}.

(** [string | Request] *)
Inductive RequestInfo : Type :=
| Url (u : string)
| RequestObject (r : Request).

Record RequestInit : Type := {
  init_method : option string;
  init_headers : option HeaderContainer
}.

(** Which of the fetch API's classes exist in the running environment
    ([typeof Request !== 'undefined'], [typeof Headers !== 'undefined']). *)
Record Globals : Type := {
  has_Request : bool;
  has_Headers : bool
}.

(** Truthiness of [string | undefined] and of [string | null]. *)
Definition truthy (o : option string) : bool :=
  match o with
  | Some s => negb (String.eqb s "")
  | None => false
  end.

(** [hay.includes(needle)]; also [hay.match(/needle/)] for a literal. *)
Fixpoint includes (needle hay : string) : bool :=
  String.prefix needle hay ||
  match hay with
  | EmptyString => false
  | String _ hay' => includes needle hay'
  end.

(** The arguments of a [fetch] call. *)
Record FetchArgs : Type := {
  input : RequestInfo;
  init : option RequestInit
}.

(** Functions of @sentry/utils and @sentry/core that these sources import
    and whose code is not part of them.  The properties below hold for every
    implementation. *)
Class Collaborators : Type := {
  dynamicSamplingContextToSentryBaggageHeader : DynamicSamplingContext -> option string;
  baggageHeaderToDynamicSamplingContext : option string -> option DynamicSamplingContext;
  getFetchUrl : FetchArgs -> string;
  getFetchMethod : FetchArgs -> string;
  stripUrlQueryAndFragment : string -> string;
  (** the environment the code runs in *)
  globals : Globals;
  (** the own enumerable properties of a [Headers] instance, which are what
      the [in] test and the object spread see of it when the instance is
      not recognised as one *)
  headersOwnProperties : Headers -> gmap string HeaderValue;
  (** the identity that [parentSpan.startChild(ctx)] or
      [hub.startTransaction(ctx)] gives the new span: its id, its
      traceparent and the transaction it belongs to *)
  spanIdentity : option Span -> TransactionContext -> string * string * option Transaction
}.

(* ===================================================================== *)
(** * packages/utils/src/tracing.ts                                      *)
(* ===================================================================== *)

Module tracing.
Import RegExp.

(** [^[ \t]*([0-9a-f]{32})?-?([0-9a-f]{16})?-?([01])?[ \t]*$] *)
Definition TRACEPARENT_REGEXP : re :=
  Cat (StarC blank)
 (Cat (Opt (Grp 1 (Rep 32 hex)))
 (Cat (Opt (Chr dash))
 (Cat (Opt (Grp 2 (Rep 16 hex)))
 (Cat (Opt (Chr dash))
 (Cat (Opt (Grp 3 (Chr bit)))
 (Cat (StarC blank)
      End)))))).

(** [matches[3] === '1'], else [matches[3] === '0'], else left undefined. *)
Definition sampled_of (m3 : option string) : option bool :=
  if decide (m3 = Some "1") then Some true
  else if decide (m3 = Some "0") then Some false
  else None.

Definition extractTraceparentData (traceparent : string) : option TraceparentData :=
  let matches := match_anchored TRACEPARENT_REGEXP (list_ascii_of_string traceparent) in
  match traceparent, matches with
  | EmptyString, _ => None
  | _, None => None
  | _, Some m =>
      Some {| traceId := string_of_list_ascii <$> group1 m;
              parentSampled := sampled_of (string_of_list_ascii <$> group3 m);
              parentSpanId := string_of_list_ascii <$> group2 m |}
  end.

(** The shape of a [sentry-trace] value as the specification words it,
    stated without the matcher: blanks, then three
    optional groups (32 hexadecimal digits, 16 hexadecimal digits, one digit
    0 or 1), each pair separated by an optional hyphen, then blanks.  [ws]
    is the class of characters that count as blanks; [t], [p] and [f] are
    the texts of the groups that are present. *)
Definition optional_group (n : nat) (cls : ascii -> bool) (o : option (list ascii)) : Prop :=
  match o with
  | Some x => length x = n /\ forallb cls x = true
  | None => True
  end.

Definition optional_hyphen (h : list ascii) : Prop :=
  h = [] \/ h = ["-"%char].

Definition text (o : option (list ascii)) : list ascii := default [] o.

Definition traceparent_skeleton (ws : ascii -> bool) (s : list ascii)
           (t p f : option (list ascii)) : Prop :=
  exists w1 h1 h2 w2,
    s = w1 ++ text t ++ h1 ++ text p ++ h2 ++ text f ++ w2 /\
    forallb ws w1 = true /\ forallb ws w2 = true /\
    optional_hyphen h1 /\ optional_hyphen h2 /\
    optional_group 32 hex t /\ optional_group 16 hex p /\ optional_group 1 bit f.

(** The record that a match with the groups [t], [p], [f] yields. *)
Definition data_of (t p f : option (list ascii)) : TraceparentData :=
  {| traceId := string_of_list_ascii <$> t;
     parentSampled := sampled_of (string_of_list_ascii <$> f);
     parentSpanId := string_of_list_ascii <$> p |}.

(** [Array.prototype.join(',')] *)
Definition join_commas (l : list string) : string := String.concat "," l.

(** The part of the last branch that collects [newBaggageHeaders]. *)
Definition newBaggageHeaders (existingBaggageHeader : HeaderValue)
           (sentryBaggageHeader : option string) : list string :=
  (match existingBaggageHeader with
   | HArray l => l
   | HString s => if truthy (Some s) then [s] else []
   | HUndefined => []
   end)
  ++ (match sentryBaggageHeader with
      | Some b => if truthy (Some b) then [b] else []
      | None => []
      end).

(** Whether a container holds a header of the given name. *)
Definition has_header (key : string) (h : HeaderContainer) : bool :=
  match h with
  | HeadersObject l | PairArray l => existsb (fun kv => String.eqb kv.1 key) l
  | PlainObject m => bool_decide (is_Some (m !! key))
  end.

Section AddTracingHeaders.
Context `{Collaborators}.

(** The properties of the container that the last branch reads and copies:
    those of a plain object, and for a [Headers] instance whatever the
    platform makes of it.  An array never reaches that branch. *)
Definition own_properties (h : HeaderContainer) : gmap string HeaderValue :=
  match h with
  | PlainObject m => m
  | HeadersObject hs => headersOwnProperties hs
  | PairArray _ => ∅
  end.

(** The last branch: every container that is neither a [Headers] instance
    nor an array is read as a plain object. *)
Definition merge_into_object (headers : HeaderContainer)
           (sentryTraceHeader : string) (sentryBaggageHeader : option string)
  : HeaderContainer :=
  let existingBaggageHeader := default HUndefined (own_properties headers !! "baggage") in
  let l := newBaggageHeaders existingBaggageHeader sentryBaggageHeader in
  PlainObject
    (<["baggage" := if decide (0 < length l) then HString (join_commas l) else HUndefined]>
       (<["sentry-trace" := HString sentryTraceHeader]> (own_properties headers))).

Definition addTracingHeadersToFetchRequest
           (request : RequestInfo) (dsc : DynamicSamplingContext) (span : Span)
           (options_headers : option HeaderContainer) : HeaderContainer :=
  let sentryBaggageHeader := dynamicSamplingContextToSentryBaggageHeader dsc in
  let sentryTraceHeader := toTraceparent span in
  let headers :=
    match request with
    | RequestObject r =>
        if has_Request globals then Some (HeadersObject (headers r)) else options_headers
    | Url _ => options_headers
    end in
  match headers with
  | None =>
      PlainObject (<["baggage" := from_option HString HUndefined sentryBaggageHeader]>
                     (<["sentry-trace" := HString sentryTraceHeader]> ∅))
  | Some (HeadersObject h) =>
      if has_Headers globals then
        let newHeaders := Headers_append h "sentry-trace" sentryTraceHeader in
        HeadersObject
          (if truthy sentryBaggageHeader
           then Headers_append newHeaders "baggage" (default "" sentryBaggageHeader)
           else newHeaders)
      else merge_into_object (HeadersObject h) sentryTraceHeader sentryBaggageHeader
  | Some (PairArray l) =>
      let newHeaders := l ++ [("sentry-trace", sentryTraceHeader)] in
      PairArray
        (if truthy sentryBaggageHeader
         then newHeaders ++ [("baggage", default "" sentryBaggageHeader)]
         else newHeaders)
  | Some (PlainObject m) =>
      merge_into_object (PlainObject m) sentryTraceHeader sentryBaggageHeader
  end.

End AddTracingHeaders.

End tracing.

(* ===================================================================== *)
(** * The monitoring SDK the wrappers call into                          *)
(* ===================================================================== *)

Module sdk.

(** A thrown value: a primitive, or an object known by its identity. *)
Inductive Primitive : Type :=
| PUndefined
| PNull
| PBoolean (b : bool)
| PNumber (n : Z)
| PString (s : string).

Inductive JsObject : Type :=
| UserObject (id : nat) (message : string)   (* an [Error] or any other object *)
| Wrapper (p : Primitive).                   (* [new String(..)], [new Number(..)], ... *)

Inductive JsValue : Type :=
| Prim (p : Primitive)
| Obj (o : JsObject).

(** What a call produces: a value, or a thrown value.  A rejected promise
    of an awaited call is a thrown value as well. *)
Inductive Outcome (T : Type) : Type :=
| Returned (v : T)
| Thrown (e : JsValue).
Arguments Returned {T} v.
Arguments Thrown {T} e.

Record Mechanism : Type := {
  type : string;
  handled : bool;
  data_function : string
}.

Record Event : Type := {
  exception : JsValue;
  mechanism : option Mechanism
}.

Record Scope : Type := {
  eventProcessors : list (Event -> Event)
}.

Definition addEventProcessor (callback : Event -> Event) (scope : Scope) : Scope :=
  {| eventProcessors := eventProcessors scope ++ [callback] |}.

Inductive Pattern : Type :=
| PStr (s : string)
| PRegExp (test : string -> bool).

Record BrowserTracingOptions : Type := {
  traceFetch : bool;
  shouldCreateSpanForRequest : option (string -> bool);
  tracePropagationTargets : option (list Pattern)
}.

Record BreadcrumbsOptions : Type := {
  breadcrumbs_fetch : bool
}.

(** The client's integrations, as [getIntegrationById] finds them. *)
Record Client : Type := {
  BrowserTracing : option BrowserTracingOptions;
  BreadCrumbs : option BreadcrumbsOptions
}.

Record Breadcrumb : Type := {
  crumb_type : string;
  category : string;
  level : option string;
  crumb_method : string;
  crumb_url : string;
  status_code : option nat
}.

(** The state behind [getCurrentHub()]: the client, the span on the scope,
    and what has been reported so far: the captured events, the finished
    spans, the HTTP status codes set on spans (by span id) and the
    breadcrumbs. *)
Record Hub : Type := {
  client : Client;
  scope_span : option Span;
  captured : list Event;
  finished : list Span;
  httpStatuses : list (string * nat);
  breadcrumbs : list Breadcrumb
}.

Definition setSpan (sp : option Span) (hub : Hub) : Hub :=
  {| client := client hub; scope_span := sp; captured := captured hub;
     finished := finished hub; httpStatuses := httpStatuses hub;
     breadcrumbs := breadcrumbs hub |}.

Definition finish (sp : Span) (hub : Hub) : Hub :=
  {| client := client hub; scope_span := scope_span hub; captured := captured hub;
     finished := finished hub ++ [sp]; httpStatuses := httpStatuses hub;
     breadcrumbs := breadcrumbs hub |}.

Definition addBreadcrumb (b : Breadcrumb) (hub : Hub) : Hub :=
  {| client := client hub; scope_span := scope_span hub; captured := captured hub;
     finished := finished hub; httpStatuses := httpStatuses hub;
     breadcrumbs := breadcrumbs hub ++ [b] |}.

(** [span.setHttpStatus(code)] *)
Definition setHttpStatus (sp : Span) (code : nat) (hub : Hub) : Hub :=
  {| client := client hub; scope_span := scope_span hub; captured := captured hub;
     finished := finished hub; httpStatuses := httpStatuses hub ++ [(spanId sp, code)];
     breadcrumbs := breadcrumbs hub |}.

Definition setStatus (st : string) (sp : Span) : Span :=
  {| spanId := spanId sp; toTraceparent := toTraceparent sp;
     transaction := transaction sp; spanContext := spanContext sp;
     spanStatus := Some st |}.

(** Modelled from the spec: [objectify] of @sentry/utils is not part of the
    sources.  A primitive is wrapped in the equivalent wrapper object, an
    object is returned as it is. *)
Definition objectify (wat : JsValue) : JsValue :=
  match wat with
  | Prim p => Obj (Wrapper p)
  | Obj o => Obj o
  end.

(** Modelled from the spec: [addExceptionMechanism] of @sentry/utils is not
    part of the sources.  It tags the event with the mechanism. *)
Definition addExceptionMechanism (event : Event) (m : Mechanism) : Event :=
  {| exception := exception event; mechanism := Some m |}.

(** Modelled from the spec: [captureException] of the SDK is not part of the
    sources.  It reports one event for the exception, after the event
    processors that the capture context adds to the scope have run on it. *)
Definition captureException (e : JsValue) (captureContext : Scope -> Scope) (hub : Hub) : Hub :=
  let scope := captureContext {| eventProcessors := [] |} in
  let event := fold_left (fun ev f => f ev) (eventProcessors scope)
                         {| exception := e; mechanism := None |} in
  {| client := client hub; scope_span := scope_span hub;
     captured := captured hub ++ [event];
     finished := finished hub; httpStatuses := httpStatuses hub;
     breadcrumbs := breadcrumbs hub |}.

(** Modelled from the spec: [stringMatchesSomePattern] of @sentry/utils is
    not part of the sources.  A string pattern accepts the URLs that contain
    it (the allow-list [["localhost"]] accepts [https://localhost/api]), a
    regular expression those it tests true on. *)
Definition isMatchingPattern (value : string) (pattern : Pattern) : bool :=
  match pattern with
  | PStr s => includes s value
  | PRegExp test => test value
  end.

Definition stringMatchesSomePattern (testString : string) (patterns : list Pattern) : bool :=
  existsb (isMatchingPattern testString) patterns.

Section Trace.
Context `{Collaborators}.

Definition startSpan (parentSpan : option Span) (context : TransactionContext) : Span :=
  let '(id, traceparent, tx) := spanIdentity parentSpan context in
  {| spanId := id; toTraceparent := traceparent; transaction := tx;
     spanContext := context; spanStatus := status context |}.

(** Modelled from the spec: [trace] of @sentry/core is not part of the
    sources.  It opens a span for the context (a child of the span on the
    scope, if any), runs the callback with it, and finalizes the span on
    every exit path.  When the callback throws, the span gets an error
    status, [onError] is told, and the original error is thrown on to the
    caller, value-equal; what [onError] returns is not used. *)
Definition trace {T : Type} (context : TransactionContext)
           (callback : option Span -> Hub -> Hub * Outcome T)
           (onError : option (JsValue -> Hub -> Hub * JsValue))
           (hub : Hub) : Hub * Outcome T :=
  let parentSpan := scope_span hub in
  let activeSpan := startSpan parentSpan context in
  let '(hub1, result) := callback (Some activeSpan) (setSpan (Some activeSpan) hub) in
  match result with
  | Returned v => (setSpan parentSpan (finish activeSpan hub1), Returned v)
  | Thrown e =>
      let hub2 :=
        match onError with
        | Some f => fst (f e hub1)
        | None => hub1
        end in
      (setSpan parentSpan (finish (setStatus "internal_error" activeSpan) hub2), Thrown e)
  end.

End Trace.

End sdk.

(** [${x}] in a template literal, for [string | null]. *)
Definition template (x : option string) : string := default "null" x.

Record Response : Type := {
  response_status : nat
}.

(* ===================================================================== *)
(** * packages/sveltekit/src/server/handle.ts                            *)
(* ===================================================================== *)

Module handle.
Import tracing sdk.

(** The request event of the framework: [event.request], [event.route.id]
    ([string | null]) and [event.url.pathname]. *)
Record RequestEvent : Type := {
  request : Request;
  route_id : option string;
  url_pathname : string
}.

Definition sendErrorToSentry (e : JsValue) (hub : Hub) : Hub * JsValue :=
  let objectifiedErr := objectify e in
  let hub' :=
    captureException objectifiedErr
      (fun scope =>
         addEventProcessor
           (fun event =>
              addExceptionMechanism event
                {| type := "sveltekit"; handled := false; data_function := "handle" |})
           scope)
      hub in
  (hub', objectifiedErr).

Section Handle.
Context `{Collaborators}.

Definition traceparentData (event : RequestEvent) : option TraceparentData :=
  let sentryTraceHeader := Headers_get (headers (request event)) "sentry-trace" in
  if truthy sentryTraceHeader
  then extractTraceparentData (default "" sentryTraceHeader)
  else None.

(** The context literal that [sentryHandle] passes to [trace]. *)
Definition handleContext (event : RequestEvent) : TransactionContext :=
  let baggageHeader := Headers_get (headers (request event)) "baggage" in
  let dynamicSamplingContext := baggageHeaderToDynamicSamplingContext baggageHeader in
  {| op := "http.server";
     name := method (request event) +:+ " " +:+ template (route_id event);
     status := Some "ok";
     continued := default no_traceparent (traceparentData event);
     metadata :=
       Some {| source := "route";
               dynamicSamplingContext :=
                 match traceparentData event, dynamicSamplingContext with
                 | Some _, None => Some ∅
                 | _, _ => dynamicSamplingContext
                 end |} |}.

(** [domain.create().bind(f)()] runs [f] at once, in a domain of its own;
    in this sequential model that is the call of [f]. *)
Definition sentryHandle (event : RequestEvent)
           (resolve : RequestEvent -> Hub -> Hub * Outcome Response)
           (hub : Hub) : Hub * Outcome Response :=
  trace (handleContext event)
        (fun span h =>
           match resolve event h with
           | (h', Returned res) =>
               (match span with
                | Some sp => setHttpStatus sp (response_status res) h'
                | None => h'
                end, Returned res)
           | (h', Thrown e) => (h', Thrown e)
           end)
        (Some sendErrorToSentry)
        hub.

End Handle.
End handle.

(* ===================================================================== *)
(** * packages/sveltekit/src/server/handle.ts: the page chunk            *)
(* ===================================================================== *)

Module page.

(** [s] without its first [n] characters. *)
Fixpoint drop_chars (n : nat) (s : string) : string :=
  match n, s with
  | S n', String _ s' => drop_chars n' s'
  | _, _ => s
  end.

(** The text before and the text after the first occurrence of [needle]. *)
Fixpoint find_first (needle hay : string) : option (string * string) :=
  if String.prefix needle hay
  then Some ("", drop_chars (String.length needle) hay)
  else
    match hay with
    | EmptyString => None
    | String c hay' =>
        match find_first needle hay' with
        | Some (before, after) => Some (String c before, after)
        | None => None
        end
    end.

(** The replacement text of [String.prototype.replace] for a pattern without
    capture groups: [$$] is a dollar sign, [$&] the matched text, [$`] the
    text before the match and [$'] the text after it; any other dollar sign
    stands for itself. *)
Fixpoint GetSubstitution (matched before after replacement : string) : string :=
  match replacement with
  | EmptyString => ""
  | String d rest =>
      if Ascii.eqb d "$" then
        match rest with
        | String c rest' =>
            if Ascii.eqb c "$" then String "$" (GetSubstitution matched before after rest')
            else if Ascii.eqb c "&" then matched +:+ GetSubstitution matched before after rest'
            else if Ascii.eqb c "`" then before +:+ GetSubstitution matched before after rest'
            else if Ascii.eqb c "'" then after +:+ GetSubstitution matched before after rest'
            else String "$" (GetSubstitution matched before after rest)
        | EmptyString => "$"
        end
      else String d (GetSubstitution matched before after rest)
  end.

(** [str.replace(pattern, replacement)] for a string pattern: the first
    occurrence only. *)
Definition replace (str pattern replacement : string) : string :=
  match find_first pattern str with
  | Some (before, after) =>
      before +:+ GetSubstitution pattern before after replacement +:+ after
  | None => str
  end.

(** The transaction that [getActiveTransaction()] returns, by the results of
    the two methods called on it. *)
Record ActiveTransaction : Type := {
  toTraceparent : string;
  getDynamicSamplingContext : DynamicSamplingContext
}.

(** A double quote and a line feed. *)
Definition dquote : string := String "034"%char "".
Definition newline : string := String "010"%char "".

(** [${x}] in a template literal, for [string | undefined]. *)
Definition template_undefined (x : option string) : string := default "undefined" x.

(** The template literal [content]. *)
Definition content (traceparentData : string) (dynamicSamplingContext : option string)
  : string :=
  "<head>" +:+ newline +:+
  "      <meta name=" +:+ dquote +:+ "sentry-trace" +:+ dquote +:+
  " content=" +:+ dquote +:+ traceparentData +:+ dquote +:+ "/>" +:+ newline +:+
  "      <meta name=" +:+ dquote +:+ "baggage" +:+ dquote +:+
  " content=" +:+ dquote +:+ template_undefined dynamicSamplingContext +:+ dquote +:+ "/>".

Section TransformPageChunk.
Context `{Collaborators}.

(** [getActiveTransaction] is the result of the call of that name. *)
Definition transformPageChunk (getActiveTransaction : option ActiveTransaction)
           (html : string) : string :=
  match getActiveTransaction with
  | Some transaction =>
      let traceparentData := toTraceparent transaction in
      let dynamicSamplingContext :=
        dynamicSamplingContextToSentryBaggageHeader (getDynamicSamplingContext transaction) in
      replace html "<head>" (content traceparentData dynamicSamplingContext)
  | None => html
  end.

End TransformPageChunk.

End page.

(* ===================================================================== *)
(** * packages/sveltekit/src/client/load.ts                              *)
(* ===================================================================== *)

Module load.
Import tracing sdk.

Definition SvelteKitFetch : Type := FetchArgs -> Hub -> Hub * Outcome Response.

Record LoadEvent : Type := {
  route_id : option string;
  url_pathname : string;
  fetch : SvelteKitFetch
}.

Definition Load : Type := LoadEvent -> Hub -> Hub * Outcome JsValue.

Definition sendErrorToSentry (e : JsValue) (hub : Hub) : Hub * JsValue :=
  let objectifiedErr := objectify e in
  let hub' :=
    captureException objectifiedErr
      (fun scope =>
         addEventProcessor
           (fun event =>
              addExceptionMechanism event
                {| type := "sveltekit"; handled := false; data_function := "load" |})
           scope)
      hub in
  (hub', objectifiedErr).

(** [addFetchBreadcrumbs]: one breadcrumb once the fetch has settled (the
    timestamps of the hint are left out). *)
Definition addFetchBreadcrumbs (fetchResult : Hub * Outcome Response)
           (method sanitizedUrl : string) : Hub * Outcome Response :=
  match fetchResult with
  | (hub, Returned response) =>
      (addBreadcrumb {| crumb_type := "http"; category := "fetch"; level := None;
                        crumb_method := method; crumb_url := sanitizedUrl;
                        status_code := Some (response_status response) |} hub,
       Returned response)
  | (hub, Thrown error) =>
      (addBreadcrumb {| crumb_type := "http"; category := "fetch"; level := Some "error";
                        crumb_method := method; crumb_url := sanitizedUrl;
                        status_code := None |} hub,
       Thrown error)
  end.

Section Wrappers.
Context `{Collaborators}.

Definition shouldTraceFetch (client : Client) : bool :=
  match BrowserTracing client with
  | Some browserTracingOptions => traceFetch browserTracingOptions
  | None => false
  end.

Definition shouldAddFetchBreadcrumbs (client : Client) : bool :=
  match BreadCrumbs client with
  | Some breadcrumbsIntegration => breadcrumbs_fetch breadcrumbsIntegration
  | None => false
  end.

Definition shouldCreateSpan (client : Client) (u : string) : bool :=
  match BrowserTracing client with
  | Some browserTracingOptions =>
      match shouldCreateSpanForRequest browserTracingOptions with
      | Some f => f u
      | None => shouldTraceFetch client
      end
  | None => shouldTraceFetch client
  end.

(** [['localhost', /^\//]] *)
Definition defaultTracePropagationTargets : list Pattern :=
  [PStr "localhost"; PRegExp (String.prefix "/")].

Definition shouldAttachHeaders (client : Client) (u : string) : bool :=
  shouldTraceFetch client &&
  stringMatchesSomePattern u
    (default defaultTracePropagationTargets
             (BrowserTracing client ≫= tracePropagationTargets)).

(** The test for the SDK's own requests. *)
Definition isSentryRequest (args : FetchArgs) : bool :=
  includes "sentry_key" (getFetchUrl args) && String.eqb (getFetchMethod args) "POST".

(** [patchedInit] as it is when the fetch is issued: a copy of [init] (an
    empty object without one), with its headers replaced when tracing
    headers are attached. *)
Definition patchedInit (client : Client) (args : FetchArgs) (hub : Hub) : RequestInit :=
  let rawUrl := getFetchUrl args in
  let copy := default {| init_method := None; init_headers := None |} (init args) in
  let activeSpan := scope_span hub in
  let activeTransaction := activeSpan ≫= transaction in
  let attachHeaders := shouldAttachHeaders client rawUrl in
  let attachSpan := shouldCreateSpan client rawUrl in
  match activeSpan, activeTransaction with
  | Some span, Some tx =>
      if attachHeaders && attachSpan then
        {| init_method := init_method copy;
           init_headers :=
             Some (addTracingHeadersToFetchRequest (input args)
                     (getDynamicSamplingContext tx) span (init_headers copy)) |}
      else copy
  | _, _ => copy
  end.

Definition instrumentSvelteKitFetch (client : Client) (originalFetch : SvelteKitFetch)
  : SvelteKitFetch :=
  fun args hub =>
    let rawUrl := getFetchUrl args in
    let sanitizedUrl := stripUrlQueryAndFragment rawUrl in
    let method := getFetchMethod args in
    if isSentryRequest args then originalFetch args hub
    else
      let activeSpan := scope_span hub in
      let call := {| input := input args; init := Some (patchedInit client args hub) |} in
      let fetchPromise :=
        if shouldCreateSpan client rawUrl then
          trace {| op := "http.client";
                   name := method +:+ " " +:+ sanitizedUrl;
                   status := None;
                   continued := {| traceId := None; parentSampled := None;
                                   parentSpanId := spanId <$> activeSpan |};
                   metadata := None |}
                (fun span h =>
                   match originalFetch call h with
                   | (h', Returned fetchResult) =>
                       (match span with
                        | Some sp => setHttpStatus sp (response_status fetchResult) h'
                        | None => h'
                        end, Returned fetchResult)
                   | (h', Thrown e) => (h', Thrown e)
                   end)
                None hub
        else originalFetch call hub in
      if shouldAddFetchBreadcrumbs client
      then addFetchBreadcrumbs fetchPromise method sanitizedUrl
      else fetchPromise.

(** The context literal that the wrapped [load] passes to [trace]. *)
Definition loadContext (event : LoadEvent) : TransactionContext :=
  let routeId := route_id event in
  {| op := "function.sveltekit.load";
     name := if truthy routeId then default "" routeId else url_pathname event;
     status := Some "ok";
     continued := no_traceparent;
     metadata := Some {| source := if truthy routeId then "route" else "url";
                         dynamicSamplingContext := None |} |}.

(** [{ ...event, fetch: instrumentSvelteKitFetch(event.fetch) }]; the
    integrations are those of the client at the time of the call. *)
Definition patchedEvent (client : Client) (event : LoadEvent) : LoadEvent :=
  {| route_id := route_id event;
     url_pathname := url_pathname event;
     fetch := instrumentSvelteKitFetch client (fetch event) |}.

Definition wrapLoadWithSentry (origLoad : Load) : Load :=
  fun event hub =>
    trace (loadContext event)
          (fun _ h => origLoad (patchedEvent (client hub) event) h)
          (Some sendErrorToSentry)
          hub.

End Wrappers.
End load.

(* ===================================================================== *)
(** * A concrete environment for the examples                            *)
(* ===================================================================== *)

(** Stand-ins for the imported functions, used where a property is shown on
    a concrete call; the serializer of the baggage fragment is left open. *)
Definition exampleCollaboratorsWith
           (serialize : DynamicSamplingContext -> option string) : Collaborators :=
  {| dynamicSamplingContextToSentryBaggageHeader := serialize;
     baggageHeaderToDynamicSamplingContext :=
       fun h => match h with
                | Some v => if String.prefix "sentry-trace_id=" v
                            then Some {[ "trace_id" := String.substring 16 (String.length v - 16) v ]}
                            else None
                | None => None
                end;
     getFetchUrl :=
       fun args => match input args with Url u => u | RequestObject r => url r end;
     getFetchMethod :=
       fun args => match input args, init args ≫= init_method with
                   | RequestObject r, _ => method r
                   | _, Some m => m
                   | _, None => "GET"
                   end;
     stripUrlQueryAndFragment := fun u => u;
     globals := {| has_Request := true; has_Headers := true |};
     headersOwnProperties := fun _ => ∅;
     spanIdentity :=
       fun parent ctx =>
         ("2222222222222222",
          "12312012123120121231201212312012-2222222222222222-1",
          Some {| getDynamicSamplingContext := {[ "trace_id" := "abc" ]} |}) |}.

(** The baggage fragment of a context is its [trace_id] entry, and there is
    none for a context without one. *)
Definition exampleCollaborators : Collaborators :=
  exampleCollaboratorsWith
    (fun dsc => (fun v => "sentry-trace_id=" +:+ v) <$> dsc !! "trace_id").

(** A resolver that answers 200. *)
Definition exampleResolve : handle.RequestEvent -> sdk.Hub -> sdk.Hub * sdk.Outcome Response :=
  fun _ hub => (hub, sdk.Returned {| response_status := 200 |}).

Definition exampleRequestEvent (route : option string) (hs : Headers)
  : handle.RequestEvent :=
  {| handle.request :=
       {| url := "https://localhost/users/123"; method := "GET"; headers := hs |};
     handle.route_id := route;
     handle.url_pathname := "/users/123" |}.

Definition exampleClient : sdk.Client :=
  {| sdk.BrowserTracing :=
       Some {| sdk.traceFetch := true;
               sdk.shouldCreateSpanForRequest := None;
               sdk.tracePropagationTargets := Some [sdk.PStr "localhost"] |};
     sdk.BreadCrumbs := Some {| sdk.breadcrumbs_fetch := true |} |}.

(** A fetch that answers 200 when the request it is given carries a
    [sentry-trace] header, and 204 when it does not. *)
Definition probeFetch : load.SvelteKitFetch :=
  fun args hub =>
    (hub,
     sdk.Returned
       {| response_status :=
            if from_option (tracing.has_header "sentry-trace") false
                           (init args ≫= init_headers)
            then 200 else 204 |}).

Definition exampleSpan : Span :=
  {| spanId := "1121201211212012";
     toTraceparent := "12312012123120121231201212312012-1121201211212012-1";
     transaction := Some {| getDynamicSamplingContext := {[ "trace_id" := "abc" ]} |};
     spanContext := {| op := "pageload"; name := "/"; status := None;
                       continued := no_traceparent; metadata := None |};
     spanStatus := None |}.

Definition exampleHub : sdk.Hub :=
  {| sdk.client := exampleClient; sdk.scope_span := Some exampleSpan;
     sdk.captured := []; sdk.finished := []; sdk.httpStatuses := [];
     sdk.breadcrumbs := [] |}.

Definition exampleFetchArgs (u : string) (m : option string) : FetchArgs :=
  {| input := Url u;
     init := Some {| init_method := m;
                     init_headers := Some (PlainObject {[ "x" := HString "1" ]}) |} |}.

(* ===================================================================== *)
(** * Properties of the matcher                                          *)
(* ===================================================================== *)

Import RegExp tracing sdk.

Ltac by_cases_on_char a :=
  destruct a as [[|] [|] [|] [|] [|] [|] [|] [|]]; vm_compute; congruence.

Lemma blank_not_hex a : blank a = true -> hex a = false.
Proof. by_cases_on_char a. Qed.

Lemma blank_not_bit a : blank a = true -> bit a = false.
Proof. by_cases_on_char a. Qed.

Lemma blank_not_dash a : blank a = true -> dash a = false.
Proof. by_cases_on_char a. Qed.

Lemma hex_not_dash a : hex a = true -> dash a = false.
Proof. by_cases_on_char a. Qed.

Lemma hex_not_blank a : hex a = true -> blank a = false.
Proof. by_cases_on_char a. Qed.

Lemma bit_not_dash a : bit a = true -> dash a = false.
Proof. by_cases_on_char a. Qed.

Lemma bit_not_blank a : bit a = true -> blank a = false.
Proof. by_cases_on_char a. Qed.

Lemma dash_char a : dash a = true -> a = "-"%char.
Proof. by_cases_on_char a. Qed.

Lemma consumed_app (x s' : list ascii) : consumed (x ++ s') s' = x.
Proof.
  unfold consumed. rewrite length_app.
  replace (length x + length s' - length s') with (length x) by lia.
  apply take_app_length.
Qed.

Lemma rep_match_app p (x s : list ascii) :
  forallb p x = true -> rep_match p (length x) (x ++ s) = Some s.
Proof.
  induction x as [|a x IH]; simpl; [reflexivity|].
  intros [Ha Hx]%andb_true_iff. rewrite Ha. auto.
Qed.

Lemma rep_match_sound p n : forall s s',
  rep_match p n s = Some s' ->
  exists x, s = x ++ s' /\ length x = n /\ forallb p x = true.
Proof.
  induction n as [|n IH]; simpl; intros s s' Hm.
  - exists []. inversion Hm. auto.
  - destruct s as [|a s]; [discriminate|].
    destruct (p a) eqn:Ha; [|discriminate].
    destruct (IH _ _ Hm) as (x & -> & Hl & Hx).
    exists (a :: x). simpl. rewrite Ha, Hx, Hl. auto.
Qed.

(** A string whose run of [p]-characters is shorter than [n] has no
    [p{n}] at its start. *)
Lemma rep_match_short p (x y : list ascii) : forall n,
  length x < n -> starts_outside p y -> rep_match p n (x ++ y) = None.
Proof.
  induction x as [|b x IH]; simpl; intros n Hn Hy.
  - destruct n; [lia|]. simpl. destruct y as [|a y]; [reflexivity|].
    simpl in Hy. rewrite Hy. reflexivity.
  - destruct n; [lia|]. simpl. destruct (p b); [|reflexivity].
    apply IH; [lia|assumption].
Qed.

Lemma star_match_prefix {A} p (w y : list ascii) (k : list ascii -> option A) r :
  forallb p w = true -> starts_outside p y -> k y = Some r ->
  star_match p (w ++ y) k = Some r.
Proof.
  intros Hw Hy Hk. induction w as [|a w IH]; simpl.
  - destruct y as [|b y]; simpl; [assumption|]. simpl in Hy. rewrite Hy. assumption.
  - simpl in Hw. apply andb_true_iff in Hw as [Ha Hw]. rewrite Ha, (IH Hw). reflexivity.
Qed.

Lemma star_match_sound {A} p (k : list ascii -> option A) r : forall s,
  star_match p s k = Some r ->
  exists x s', s = x ++ s' /\ forallb p x = true /\ k s' = Some r.
Proof.
  induction s as [|a s IH]; simpl; intros Hm.
  - exists [], []. auto.
  - destruct (p a) eqn:Ha.
    + destruct (star_match p s k) eqn:Hs.
      * destruct (IH Hm) as (x & s' & -> & Hx & Hk).
        exists (a :: x), s'. simpl. rewrite Ha, Hx. auto.
      * exists [], (a :: s). auto.
    + exists [], (a :: s). auto.
Qed.

Lemma sem_suffix r : forall s s' g g', sem r s s' g g' -> exists x, s = x ++ s'.
Proof.
  induction r as [p|n p|p|r IH|r1 IH1 r2 IH2|i r IH|]; simpl; intros s s' g g' Hs.
  - destruct Hs as (a & -> & _). exists [a]. reflexivity.
  - destruct Hs as (x & -> & _). eauto.
  - destruct Hs as (x & -> & _). eauto.
  - destruct Hs as [[-> _]|Hs]; [exists []; reflexivity | eauto].
  - destruct Hs as (s1 & g1 & H1 & H2).
    destruct (IH1 _ _ _ _ H1) as (x1 & ->), (IH2 _ _ _ _ H2) as (x2 & ->).
    exists (x1 ++ x2). now rewrite <- app_assoc.
  - destruct Hs as (x & _ & -> & _). eauto.
  - destruct Hs as (-> & -> & _). exists []. reflexivity.
Qed.

(** Every result of the matcher is a match in the declarative sense. *)
Lemma run_sound r : forall s g k res,
  run r s g k = Some res ->
  exists s' g', sem r s s' g g' /\ k s' g' = Some res.
Proof.
  induction r as [p|n p|p|r IH|r1 IH1 r2 IH2|i r IH|]; simpl; intros s g k res Hr.
  - destruct s as [|a s]; [discriminate|]. destruct (p a) eqn:Ha; [|discriminate].
    exists s, g. eauto 6.
  - destruct (rep_match p n s) as [s'|] eqn:Hm; [|discriminate].
    destruct (rep_match_sound _ _ _ _ Hm) as (x & -> & Hl & Hx).
    exists s', g. eauto 8.
  - destruct (star_match_sound _ _ _ _ Hr) as (x & s' & -> & Hx & Hk).
    exists s', g. eauto 8.
  - destruct (run r s g k) as [res'|] eqn:Hi.
    + destruct (IH _ _ _ _ Hi) as (s' & g' & Hs & Hk).
      exists s', g'. split; [right; assumption | congruence].
    + exists s, g. auto.
  - destruct (IH1 _ _ _ _ Hr) as (s1 & g1 & H1 & Hk1).
    destruct (IH2 _ _ _ _ Hk1) as (s2 & g2 & H2 & Hk2).
    exists s2, g2. eauto.
  - destruct (IH _ _ _ _ Hr) as (s' & g' & Hs & Hk).
    destruct (sem_suffix _ _ _ _ _ Hs) as (x & ->).
    rewrite consumed_app in Hk.
    exists s', (set_group i x g'). eauto 6.
  - destruct s; [|discriminate]. exists [], g. auto.
Qed.

(** ** The matcher on the pieces of [TRACEPARENT_REGEXP] *)

Lemma run_opt_take r s g k res :
  run r s g k = Some res -> run (Opt r) s g k = Some res.
Proof. simpl. now intros ->. Qed.

Lemma run_opt_skip r s g k :
  run r s g k = None -> run (Opt r) s g k = k s g.
Proof. simpl. now intros ->. Qed.

Lemma run_chr_take (p : ascii -> bool) a s g k :
  p a = true -> run (Chr p) (a :: s) g k = k s g.
Proof. simpl. now intros ->. Qed.

Lemma run_chr_none (p : ascii -> bool) s g k :
  starts_outside p s -> run (Chr p) s g k = None.
Proof. destruct s as [|a s]; simpl; [reflexivity|]. now intros ->. Qed.

Lemma run_grp_chr i (p : ascii -> bool) a s g k :
  p a = true -> run (Grp i (Chr p)) (a :: s) g k = k s (set_group i [a] g).
Proof.
  intros Ha. simpl. rewrite Ha.
  change (a :: s) with ([a] ++ s). now rewrite consumed_app.
Qed.

Lemma run_grp_chr_none i (p : ascii -> bool) s g k :
  starts_outside p s -> run (Grp i (Chr p)) s g k = None.
Proof. destruct s as [|a s]; simpl; [reflexivity|]. now intros ->. Qed.

Lemma run_grp_rep i p x s g k :
  forallb p x = true ->
  run (Grp i (Rep (length x) p)) (x ++ s) g k = k s (set_group i x g).
Proof. intros Hx. simpl. now rewrite rep_match_app, consumed_app. Qed.

Lemma run_grp_rep_none i n p x y g k :
  length x < n -> starts_outside p y -> run (Grp i (Rep n p)) (x ++ y) g k = None.
Proof. intros Hl Hy. simpl. now rewrite rep_match_short. Qed.

Lemma blanks_start_outside (p : ascii -> bool) w :
  (forall a, blank a = true -> p a = false) ->
  forallb blank w = true -> starts_outside p w.
Proof.
  intros Hp. destruct w as [|a w]; simpl; [trivial|].
  intros [Ha _]%andb_true_iff. auto.
Qed.

Lemma group_length n cls o : optional_group n cls o -> length (text o) <= n.
Proof. destruct o as [x|]; simpl; [intros [-> _]; lia | lia]. Qed.

Lemma hyphen_length h : optional_hyphen h -> length h <= 1.
Proof. intros [->| ->]; simpl; lia. Qed.

(** After the flag only blanks remain, so a hyphen cannot follow. *)
Lemma flag_then_blanks_outside_dash f w2 :
  optional_group 1 bit f -> forallb blank w2 = true ->
  starts_outside dash (text f ++ w2).
Proof.
  intros Hf Hw. destruct f as [x|]; simpl.
  - destruct Hf as [Hl Hb]. destruct x as [|a x]; [discriminate|].
    simpl in *. apply andb_true_iff in Hb as [Ha _]. now apply bit_not_dash.
  - now apply blanks_start_outside; [apply blank_not_dash|].
Qed.

Local Abbreviation finalk := (fun (_ : list ascii) (g : groups) => Some g).
Local Abbreviation tail6 := (Cat (StarC blank) End).
Local Abbreviation tail5 := (Cat (Opt (Grp 3 (Chr bit))) tail6).
Local Abbreviation tail4 := (Cat (Opt (Chr dash)) tail5).
Local Abbreviation tail3 := (Cat (Opt (Grp 2 (Rep 16 hex))) tail4).
Local Abbreviation tail2 := (Cat (Opt (Chr dash)) tail3).
Local Abbreviation tail1 := (Cat (Opt (Grp 1 (Rep 32 hex))) tail2).

Lemma tail6_ok w2 g :
  forallb blank w2 = true -> run tail6 w2 g finalk = Some g.
Proof.
  intros Hw. cbn [run].
  pose proof (star_match_prefix blank w2 []
                (fun s' => run End s' g finalk) g Hw I eq_refl) as Hs.
  now rewrite app_nil_r in Hs.
Qed.

Lemma tail5_ok f w2 g :
  optional_group 1 bit f -> forallb blank w2 = true ->
  run tail5 (text f ++ w2) g finalk = Some (set_opt_group 3 f g).
Proof.
  intros Hf Hw. change (run tail5 ?s ?g ?k) with
    (run (Opt (Grp 3 (Chr bit))) s g (fun s1 g1 => run tail6 s1 g1 k)).
  destruct f as [x|]; simpl text.
  - destruct Hf as [Hl Hb]. destruct x as [|a [|b x]]; try discriminate.
    simpl in Hb. rewrite andb_true_r in Hb.
    apply run_opt_take. simpl app. rewrite run_grp_chr by assumption.
    now apply tail6_ok.
  - rewrite run_opt_skip.
    + now apply tail6_ok.
    + apply run_grp_chr_none. now apply blanks_start_outside; [apply blank_not_bit|].
Qed.

Lemma tail4_ok h2 f w2 g :
  optional_hyphen h2 -> optional_group 1 bit f -> forallb blank w2 = true ->
  run tail4 (h2 ++ text f ++ w2) g finalk = Some (set_opt_group 3 f g).
Proof.
  intros Hh Hf Hw. change (run tail4 ?s ?g ?k) with
    (run (Opt (Chr dash)) s g (fun s1 g1 => run tail5 s1 g1 k)).
  destruct Hh as [->| ->]; simpl app.
  - rewrite run_opt_skip; [now apply tail5_ok|].
    apply run_chr_none. now apply flag_then_blanks_outside_dash.
  - apply run_opt_take. rewrite run_chr_take by reflexivity. now apply tail5_ok.
Qed.

Lemma tail3_ok p h2 f w2 g :
  optional_group 16 hex p -> optional_hyphen h2 -> optional_group 1 bit f ->
  forallb blank w2 = true ->
  run tail3 (text p ++ h2 ++ text f ++ w2) g finalk
  = Some (set_opt_group 3 f (set_opt_group 2 p g)).
Proof.
  intros Hp Hh Hf Hw. change (run tail3 ?s ?g ?k) with
    (run (Opt (Grp 2 (Rep 16 hex))) s g (fun s1 g1 => run tail4 s1 g1 k)).
  destruct p as [x|]; simpl text.
  - destruct Hp as [Hl Hx]. apply run_opt_take. rewrite <- Hl.
    rewrite run_grp_rep by assumption. now apply tail4_ok.
  - simpl app. rewrite run_opt_skip; [now apply tail4_ok|].
    rewrite (app_assoc h2). apply run_grp_rep_none.
    + rewrite length_app.
      pose proof (hyphen_length _ Hh). pose proof (group_length _ _ _ Hf). lia.
    + now apply blanks_start_outside; [apply blank_not_hex|].
Qed.

Lemma tail2_ok h1 p h2 f w2 g :
  optional_hyphen h1 -> optional_group 16 hex p -> optional_hyphen h2 ->
  optional_group 1 bit f -> forallb blank w2 = true ->
  run tail2 (h1 ++ text p ++ h2 ++ text f ++ w2) g finalk
  = Some (set_opt_group 3 f (set_opt_group 2 p g)).
Proof.
  intros Hh1 Hp Hh2 Hf Hw. change (run tail2 ?s ?g ?k) with
    (run (Opt (Chr dash)) s g (fun s1 g1 => run tail3 s1 g1 k)).
  destruct Hh1 as [->| ->]; simpl app.
  - destruct p as [x|].
    + (* the span id starts with a hexadecimal digit *)
      rewrite run_opt_skip; [now apply tail3_ok|].
      apply run_chr_none. destruct Hp as [Hl Hx].
      destruct x as [|a x]; [discriminate|]. simpl in *.
      apply andb_true_iff in Hx as [Ha _]. now apply hex_not_dash.
    + destruct Hh2 as [->| ->].
      * rewrite run_opt_skip.
        -- apply (tail3_ok None [] f w2 g); [exact I | now left | assumption | assumption].
        -- apply run_chr_none. simpl. now apply flag_then_blanks_outside_dash.
      * (* the only hyphen is taken by the first [-?] *)
        change (text None ++ ["-"%char] ++ text f ++ w2)
          with ("-"%char :: text f ++ w2).
        apply run_opt_take. rewrite run_chr_take by reflexivity.
        apply (tail3_ok None [] f w2 g); [exact I | now left | assumption | assumption].
  - apply run_opt_take. rewrite run_chr_take by reflexivity. now apply tail3_ok.
Qed.

Lemma tail1_ok t h1 p h2 f w2 g :
  optional_group 32 hex t -> optional_hyphen h1 -> optional_group 16 hex p ->
  optional_hyphen h2 -> optional_group 1 bit f -> forallb blank w2 = true ->
  run tail1 (text t ++ h1 ++ text p ++ h2 ++ text f ++ w2) g finalk
  = Some (set_opt_group 3 f (set_opt_group 2 p (set_opt_group 1 t g))).
Proof.
  intros Ht Hh1 Hp Hh2 Hf Hw. change (run tail1 ?s ?g ?k) with
    (run (Opt (Grp 1 (Rep 32 hex))) s g (fun s1 g1 => run tail2 s1 g1 k)).
  destruct t as [x|]; simpl text.
  - destruct Ht as [Hl Hx]. apply run_opt_take. rewrite <- Hl.
    rewrite run_grp_rep by assumption. now apply tail2_ok.
  - simpl app. rewrite run_opt_skip; [now apply tail2_ok|].
    replace (h1 ++ text p ++ h2 ++ text f ++ w2)
      with ((h1 ++ text p ++ h2 ++ text f) ++ w2)
      by now rewrite <- !app_assoc.
    apply run_grp_rep_none.
    + rewrite !length_app.
      pose proof (hyphen_length _ Hh1). pose proof (hyphen_length _ Hh2).
      pose proof (group_length _ _ _ Hp). pose proof (group_length _ _ _ Hf). lia.
    + now apply blanks_start_outside; [apply blank_not_hex|].
Qed.

Lemma sem_opt_rep i n p s s' g g' :
  sem (Opt (Grp i (Rep n p))) s s' g g' ->
  exists o, s = text o ++ s' /\ optional_group n p o /\ g' = set_opt_group i o g.
Proof.
  simpl. intros [[-> ->]|(x & g1 & Hs & (x' & Hs' & Hl & Hx & ->) & ->)].
  - exists None. simpl. auto.
  - assert (x' = x) as -> by (apply (app_inv_tail s'); congruence).
    exists (Some x). simpl. auto.
Qed.

Lemma sem_opt_chr i p s s' g g' :
  sem (Opt (Grp i (Chr p))) s s' g g' ->
  exists o, s = text o ++ s' /\ optional_group 1 p o /\ g' = set_opt_group i o g.
Proof.
  simpl. intros [[-> ->]|(x & g1 & Hs & (a & Hs' & Ha & ->) & ->)].
  - exists None. simpl. auto.
  - assert (x = [a]) as -> by (apply (app_inv_tail s'); simpl; congruence).
    exists (Some [a]). simpl. rewrite Ha. auto.
Qed.

Lemma sem_opt_dash s s' g g' :
  sem (Opt (Chr dash)) s s' g g' ->
  exists h, s = h ++ s' /\ optional_hyphen h /\ g' = g.
Proof.
  simpl. intros [[-> ->]|(a & -> & Ha & ->)].
  - exists []. split; [reflexivity|]. split; [now left | reflexivity].
  - apply dash_char in Ha as ->. exists ["-"%char].
    split; [reflexivity|]. split; [now right | reflexivity].
Qed.

Lemma groups_of_parts t p f :
  set_opt_group 3 f (set_opt_group 2 p (set_opt_group 1 t no_groups)) = Groups t p f.
Proof. destruct t, p, f; reflexivity. Qed.

(** Whatever the matcher returns for [TRACEPARENT_REGEXP] has the shape of
    a traceparent, with the returned groups. *)
Lemma regexp_sound s m :
  match_anchored TRACEPARENT_REGEXP s = Some m ->
  traceparent_skeleton blank s (group1 m) (group2 m) (group3 m).
Proof.
  unfold match_anchored. intros Hr.
  apply run_sound in Hr as (s' & g' & Hs & [= <-]).
  destruct Hs as (s1 & g1 & (w1 & -> & Hw1 & ->) & s2 & g2 & Ht & Hs).
  apply sem_opt_rep in Ht as (t & -> & Ht & ->).
  destruct Hs as (s3 & g3 & Hh1 & s4 & g4 & Hp & Hs).
  apply sem_opt_dash in Hh1 as (h1 & -> & Hh1 & ->).
  apply sem_opt_rep in Hp as (p & -> & Hp & ->).
  destruct Hs as (s5 & g5 & Hh2 & s6 & g6 & Hf & Hs).
  apply sem_opt_dash in Hh2 as (h2 & -> & Hh2 & ->).
  apply sem_opt_chr in Hf as (f & -> & Hf & ->).
  destruct Hs as (s7 & g7 & (w2 & -> & Hw2 & ->) & -> & _ & ->).
  rewrite groups_of_parts. simpl.
  exists w1, h1, h2, w2. rewrite app_nil_r. auto 10.
Qed.

(** Every string of that shape is matched, and the groups returned are the
    ones of the shape: the greedy search never settles on other groups. *)
Lemma regexp_complete s t p f :
  traceparent_skeleton blank s t p f ->
  match_anchored TRACEPARENT_REGEXP s = Some (Groups t p f).
Proof.
  intros (w1 & h1 & h2 & w2 & -> & Hw1 & Hw2 & Hh1 & Hh2 & Ht & Hp & Hf).
  unfold match_anchored, TRACEPARENT_REGEXP. cbn [run].
  rewrite <- groups_of_parts.
  assert (starts_outside blank (text t ++ h1 ++ text p ++ h2 ++ text f ++ w2)
          \/ (t = None /\ h1 = [] /\ p = None /\ h2 = [] /\ f = None)) as [Hout|Hnone].
  { destruct t as [[|a x]|]; [destruct Ht; discriminate | |].
    { left. simpl. destruct Ht as [_ Hx]. simpl in Hx.
      apply andb_true_iff in Hx as [Ha _]. now apply hex_not_blank. }
    destruct Hh1 as [->| ->]; [|left; reflexivity].
    destruct p as [[|a x]|]; [destruct Hp; discriminate | |].
    { left. simpl. destruct Hp as [_ Hx]. simpl in Hx.
      apply andb_true_iff in Hx as [Ha _]. now apply hex_not_blank. }
    destruct Hh2 as [->| ->]; [|left; reflexivity].
    destruct f as [[|a x]|]; [destruct Hf; discriminate | |].
    { left. simpl. destruct Hf as [_ Hx]. simpl in Hx.
      apply andb_true_iff in Hx as [Ha _]. now apply bit_not_blank. }
    right. auto. }
  - apply star_match_prefix; [assumption | assumption |].
    now apply (tail1_ok t h1 p h2 f w2 no_groups).
  - destruct Hnone as (-> & -> & -> & -> & ->). simpl app.
    rewrite <- (app_nil_r (w1 ++ w2)).
    apply star_match_prefix; [| exact I |].
    + rewrite forallb_app, Hw1, Hw2. reflexivity.
    + apply (tail1_ok None [] None [] None [] no_groups);
        solve [exact I | now left | reflexivity].
Qed.

(** The flag that [sampled_of] reads off the third group. *)
Lemma sampled_of_true f :
  sampled_of (string_of_list_ascii <$> f) = Some true <-> f = Some ["1"%char].
Proof.
  unfold sampled_of. split.
  - repeat case_decide; try discriminate. intros _.
    destruct f as [x|]; [|discriminate]. simpl in *.
    f_equal. rewrite <- (list_ascii_of_string_of_list_ascii x).
    now replace (string_of_list_ascii x) with "1"%string by congruence.
  - intros ->. reflexivity.
Qed.

Lemma sampled_of_false f :
  sampled_of (string_of_list_ascii <$> f) = Some false <-> f = Some ["0"%char].
Proof.
  unfold sampled_of. split.
  - repeat case_decide; try discriminate. intros _.
    destruct f as [x|]; [|discriminate]. simpl in *.
    f_equal. rewrite <- (list_ascii_of_string_of_list_ascii x).
    now replace (string_of_list_ascii x) with "0"%string by congruence.
  - intros ->. reflexivity.
Qed.

Lemma extractTraceparentData_unfold a s :
  extractTraceparentData (String a s) =
  (fun m => data_of (group1 m) (group2 m) (group3 m))
    <$> match_anchored TRACEPARENT_REGEXP (list_ascii_of_string (String a s)).
Proof.
  unfold extractTraceparentData.
  destruct (match_anchored _ _); reflexivity.
Qed.

(* ===================================================================== *)
(** * Traceparent parsing                                                *)
(* ===================================================================== *)

Example extract_full :
  extractTraceparentData "12312012123120121231201212312012-1121201211212012-1"
  = Some {| traceId := Some "12312012123120121231201212312012";
            parentSampled := Some true;
            parentSpanId := Some "1121201211212012" |}.
Proof. vm_compute. reflexivity. Qed.

Example extract_without_flag :
  extractTraceparentData "  12312012123120121231201212312012-1121201211212012 "
  = Some {| traceId := Some "12312012123120121231201212312012";
            parentSampled := None;
            parentSpanId := Some "1121201211212012" |}.
Proof. vm_compute. reflexivity. Qed.

Example extract_garbage :
  extractTraceparentData "garbage" = None /\ extractTraceparentData "" = None /\
  extractTraceparentData "123120121231201212312012-1121201211212012-1" = None.
Proof. vm_compute. auto. Qed.

(** C1, as stated, fails: the spec's pattern allows any white space ([\s])
    around the groups, the code's pattern only spaces and tabs.  A complete
    traceparent followed by a line feed is non-empty and has the shape of
    the spec's pattern, and the code returns no data for it. *)
Lemma extractTraceparentData_line_feed_counterexample :
  let s := "12312012123120121231201212312012-1121201211212012-1" +:+ String "010"%char "" in
  s <> "" /\
  (exists t p f, traceparent_skeleton space (list_ascii_of_string s) t p f) /\
  extractTraceparentData s = None.
Proof.
  split; [discriminate|]. split; [|vm_compute; reflexivity].
  exists (Some (list_ascii_of_string "12312012123120121231201212312012")),
         (Some (list_ascii_of_string "1121201211212012")),
         (Some ["1"%char]).
  exists [], ["-"%char], ["-"%char], ["010"%char].
  repeat split; solve [reflexivity | now right].
Qed.

(** C1, amended: with blanks being spaces and tabs only, the parse succeeds
    exactly on the non-empty strings of the traceparent shape; it returns no
    data on the empty string and on every other string; the record returned
    carries the texts of the groups that are present, and the sampled flag
    is [true] exactly for the digit 1 and [false] exactly for the digit 0. *)
Theorem extractTraceparentData_blank_skeleton (s : string) :
  (forall d,
      extractTraceparentData s = Some d <->
      s <> "" /\
      exists t p f,
        traceparent_skeleton blank (list_ascii_of_string s) t p f /\
        d = {| traceId := string_of_list_ascii <$> t;
               parentSampled := sampled_of (string_of_list_ascii <$> f);
               parentSpanId := string_of_list_ascii <$> p |}) /\
  (extractTraceparentData s = None <->
   s = "" \/ ~ exists t p f, traceparent_skeleton blank (list_ascii_of_string s) t p f) /\
  (forall f,
      (sampled_of (string_of_list_ascii <$> f) = Some true <-> f = Some ["1"%char]) /\
      (sampled_of (string_of_list_ascii <$> f) = Some false <-> f = Some ["0"%char])).
Proof.
  split; [|split].
  - intros d. split.
    + destruct s as [|a s]; [discriminate|].
      rewrite extractTraceparentData_unfold.
      destruct (match_anchored _ _) as [m|] eqn:Hm; [|discriminate].
      intros [= <-]. split; [discriminate|].
      exists (group1 m), (group2 m), (group3 m).
      split; [now apply regexp_sound | reflexivity].
    + intros (Hs & t & p & f & Hsk & ->).
      destruct s as [|a s]; [congruence|].
      rewrite extractTraceparentData_unfold, (regexp_complete _ _ _ _ Hsk).
      reflexivity.
  - split.
    + intros Hnone. destruct s as [|a s]; [now left|]. right. intros (t & p & f & Hsk).
      rewrite extractTraceparentData_unfold, (regexp_complete _ _ _ _ Hsk) in Hnone.
      discriminate.
    + intros [->|Hno]; [reflexivity|].
      destruct s as [|a s]; [reflexivity|].
      rewrite extractTraceparentData_unfold.
      destruct (match_anchored _ _) as [m|] eqn:Hm; [|reflexivity].
      exfalso. apply Hno. eauto using regexp_sound.
  - intros f. split; [apply sampled_of_true | apply sampled_of_false].
Qed.

(* ===================================================================== *)
(** * Header injection                                                   *)
(* ===================================================================== *)

Lemma prefix_append x b : String.prefix x (x +:+ b) = true.
Proof.
  induction x as [|c x IH]; [destruct b; reflexivity|].
  change (String c x +:+ b) with (String c (x +:+ b)). simpl.
  destruct (ascii_dec c c); [assumption | congruence].
Qed.

Lemma includes_prefix x h : String.prefix x h = true -> includes x h = true.
Proof. intros Hp. destruct h; cbn [includes]; rewrite Hp; reflexivity. Qed.

Lemma includes_middle a x b : includes x (a +:+ x +:+ b) = true.
Proof.
  induction a as [|c a IH].
  - change ("" +:+ x +:+ b) with (x +:+ b). apply includes_prefix, prefix_append.
  - change (String c a +:+ x +:+ b) with (String c (a +:+ x +:+ b)).
    cbn [includes]. rewrite IH. apply orb_true_r.
Qed.

Lemma append_assoc (a b c : string) : (a +:+ b) +:+ c = a +:+ (b +:+ c).
Proof.
  induction a as [|x a IH]; [reflexivity|].
  change (String x ((a +:+ b) +:+ c) = String x (a +:+ (b +:+ c))).
  now rewrite IH.
Qed.

Lemma append_empty_r (a : string) : a +:+ "" = a.
Proof.
  induction a as [|x a IH]; [reflexivity|].
  change (String x (a +:+ "") = String x a). now rewrite IH.
Qed.

Lemma concat_cons sep x y (l : list string) :
  String.concat sep (x :: y :: l) = x +:+ sep +:+ String.concat sep (y :: l).
Proof. reflexivity. Qed.

(** Every element of a joined list is part of the joined string. *)
Lemma join_commas_includes (l : list string) e :
  e ∈ l -> includes e (join_commas l) = true.
Proof.
  unfold join_commas. intros He.
  assert (exists a b, String.concat "," l = a +:+ e +:+ b) as (a & b & ->);
    [|apply includes_middle].
  induction l as [|x l IH]; [inversion He|].
  destruct l as [|y l].
  - apply list_elem_of_singleton in He as ->. exists "", "". simpl.
    now rewrite append_empty_r.
  - rewrite concat_cons. apply elem_of_cons in He as [->|He].
    + exists "", ("," +:+ String.concat "," (y :: l)). reflexivity.
    + destruct (IH He) as (a & b & ->). exists (x +:+ "," +:+ a), b.
      now rewrite !append_assoc.
Qed.

Section Injection.
Context `{Collaborators}.

Lemma truthy_Some s : truthy (Some s) = if decide (s = "") then false else true.
Proof.
  unfold truthy. case_decide as Hs.
  - subst. reflexivity.
  - apply negb_true_iff, String.eqb_neq. assumption.
Qed.

Lemma effective_headers request (o : option HeaderContainer) :
  (forall r, request = RequestObject r -> has_Request globals = false) ->
  match request with
  | RequestObject r =>
      if has_Request globals then Some (HeadersObject (headers r)) else o
  | Url _ => o
  end = o.
Proof.
  intros Hreq. destruct request as [u|r]; [reflexivity|].
  now rewrite (Hreq r eq_refl).
Qed.

(** C2, amended: a plain header object that already has a baggage value,
    for a request that is not a [Request] object (the function injects into
    the headers of a [Request] object instead).  The object
    returned keeps every key, leaves the other headers as they are, and its
    baggage is the comma-joined list of the entries that were there (the
    elements of an array, or the one non-empty string) followed by the new
    fragment when there is one; every entry is part of that string.  When
    the list is empty the key is bound to [undefined], not to a string. *)
Theorem plain_object_baggage_merge
        (request : RequestInfo) (dsc : DynamicSamplingContext) (span : Span)
        (m : gmap string HeaderValue) (existing : HeaderValue) :
  (forall r, request = RequestObject r -> has_Request globals = false) ->
  m !! "baggage" = Some existing ->
  existing <> HUndefined ->
  let entries :=
    match existing with
    | HArray l => l
    | HString s => if decide (s = "") then [] else [s]
    | HUndefined => []
    end ++
    match dynamicSamplingContextToSentryBaggageHeader dsc with
    | Some b => if decide (b = "") then [] else [b]
    | None => []
    end in
  exists m' : gmap string HeaderValue,
    addTracingHeadersToFetchRequest request dsc span (Some (PlainObject m)) = PlainObject m' /\
    (forall k, is_Some (m !! k) -> is_Some (m' !! k)) /\
    (forall k, k <> "sentry-trace" -> k <> "baggage" -> m' !! k = m !! k) /\
    m' !! "sentry-trace" = Some (HString (toTraceparent span)) /\
    (entries <> [] ->
     m' !! "baggage" = Some (HString (join_commas entries)) /\
     forall e, e ∈ entries -> includes e (join_commas entries) = true) /\
    (entries = [] -> m' !! "baggage" = Some HUndefined).
Proof.
  intros Hreq Hm Hex entries.
  unfold addTracingHeadersToFetchRequest. rewrite (effective_headers _ _ Hreq).
  unfold merge_into_object. cbn [own_properties]. rewrite Hm. cbn [default from_option id].
  assert (newBaggageHeaders existing (dynamicSamplingContextToSentryBaggageHeader dsc)
          = entries) as ->.
  { unfold newBaggageHeaders, entries. f_equal.
    - destruct existing; try reflexivity. now rewrite truthy_Some; case_decide.
    - destruct (dynamicSamplingContextToSentryBaggageHeader dsc); [|reflexivity].
      now rewrite truthy_Some; case_decide. }
  eexists. split; [reflexivity|]. repeat split.
  - intros k Hk. destruct (decide (k = "baggage")) as [->|Hb];
      [rewrite lookup_insert_eq; eauto|].
    rewrite lookup_insert_ne by congruence.
    destruct (decide (k = "sentry-trace")) as [->|Ht];
      [rewrite lookup_insert_eq; eauto|].
    now rewrite lookup_insert_ne by congruence.
  - intros k Ht Hb. now rewrite !lookup_insert_ne by congruence.
  - rewrite lookup_insert_ne by discriminate. apply lookup_insert_eq.
  - rewrite lookup_insert_eq. case_decide as Hl; [reflexivity|].
    destruct entries; [congruence | simpl in Hl; lia].
  - intros e He. now apply join_commas_includes.
  - intros ->. rewrite lookup_insert_eq. reflexivity.
Qed.


End Injection.

(** C2, as stated, fails: when the request is a [Request] object the
    function injects into the headers of the request and does not read the
    plain object of the options.  The result is then a [Headers] object
    without the key [x] of the mapping and without its baggage entry. *)
Lemma plain_object_with_request_counterexample :
  let mapping : gmap string HeaderValue :=
    {[ "baggage" := HString "a=1"; "x" := HString "1" ]} in
  let result :=
    @addTracingHeadersToFetchRequest exampleCollaborators
      (RequestObject {| url := "https://localhost/api"; method := "GET";
                        headers := [("y", "2")] |})
      {[ "trace_id" := "abc" ]} exampleSpan (Some (PlainObject mapping)) in
  mapping !! "baggage" = Some (HString "a=1") /\
  is_Some (mapping !! "x") /\
  (exists h, result = HeadersObject h) /\
  has_header "x" result = false /\
  Headers_get (match result with HeadersObject h => h | _ => [] end) "baggage"
  = Some "sentry-trace_id=abc".
Proof.
  split; [vm_compute; reflexivity|]. split; [eexists; vm_compute; reflexivity|].
  split; [eexists; vm_compute; reflexivity|].
  split; vm_compute; reflexivity.
Qed.


Lemma plain_object_baggage_merge_witness :
  exists m' : gmap string HeaderValue,
    @addTracingHeadersToFetchRequest exampleCollaborators
      (Url "https://localhost/api") {[ "trace_id" := "abc" ]} exampleSpan
      (Some (PlainObject {[ "baggage" := HString "a=1"; "x" := HString "1" ]}))
    = PlainObject m' /\
    m' !! "x" = Some (HString "1") /\
    m' !! "baggage" = Some (HString "a=1,sentry-trace_id=abc").
Proof.
  destruct (@plain_object_baggage_merge exampleCollaborators
              (Url "https://localhost/api") {[ "trace_id" := "abc" ]} exampleSpan
              {[ "baggage" := HString "a=1"; "x" := HString "1" ]} (HString "a=1"))
    as (m' & Hm' & _ & Hother & _ & Hjoin & _).
  - intros r Hr. discriminate Hr.
  - vm_compute. reflexivity.
  - discriminate.
  - exists m'. split; [exact Hm'|]. split.
    + rewrite Hother by discriminate. vm_compute. reflexivity.
    + destruct Hjoin as [Hb _]; [vm_compute; discriminate|]. exact Hb.
Defined.


(* ===================================================================== *)
(** * The contexts of the request and load spans                         *)
(* ===================================================================== *)

Import handle.

Section Contexts.
Context `{Collaborators}.

Lemma truthy_true o : truthy o = true -> exists s, o = Some s /\ s <> "".
Proof.
  destruct o as [s|]; [|discriminate]. rewrite truthy_Some.
  case_decide; [discriminate|]. eauto.
Qed.

Lemma spanContext_startSpan parent ctx : spanContext (startSpan parent ctx) = ctx.
Proof. unfold startSpan. destruct (spanIdentity parent ctx) as [[? ?] ?]. reflexivity. Qed.

(** The span that [trace] finishes last is the one it opened for the
    context. *)
Lemma trace_finishes_context {T} ctx (callback : option Span -> Hub -> Hub * Outcome T)
      onError hub :
  exists sp, last (finished (fst (trace ctx callback onError hub))) = Some sp /\
             spanContext sp = ctx.
Proof.
  unfold trace. destruct (callback _ _) as [h1 [v|e]].
  - cbn -[startSpan]. rewrite last_snoc. eexists. split; [reflexivity|].
    apply spanContext_startSpan.
  - cbn -[startSpan]. rewrite last_snoc. eexists. split; [reflexivity|].
    cbn -[startSpan]. apply spanContext_startSpan.
Qed.

Lemma extract_nonempty h d : extractTraceparentData h = Some d -> truthy (Some h) = true.
Proof. destruct h; [discriminate | reflexivity]. Qed.

(** The name of the request span, for every event. *)
Lemma handleContext_name (event : RequestEvent) :
  name (handleContext event)
  = method (request event) +:+ " " +:+
    match handle.route_id event with Some id => id | None => "null" end.
Proof. unfold handleContext. simpl. destruct (handle.route_id event); reflexivity. Qed.

(** C10: when the [sentry-trace] header parses but the baggage header gives
    no sampling context, the metadata of the request span carries the empty
    context; when there is no traceparent data (no header, or one that does
    not parse), the parsed sampling context is passed as it is, absent or
    not.  The span that [sentryHandle] opens and finishes has this
    context. *)
Theorem handle_freezes_dynamicSamplingContext (event : RequestEvent) :
  let sentryTraceHeader := Headers_get (headers (request event)) "sentry-trace" in
  let parsed :=
    baggageHeaderToDynamicSamplingContext (Headers_get (headers (request event)) "baggage") in
  (forall resolve hub,
      exists sp, last (finished (fst (sentryHandle event resolve hub))) = Some sp /\
                 spanContext sp = handleContext event) /\
  exists md,
    metadata (handleContext event) = Some md /\
    (forall h d,
        sentryTraceHeader = Some h -> extractTraceparentData h = Some d ->
        continued (handleContext event) = d /\
        (parsed = None -> dynamicSamplingContext md = Some ∅) /\
        (is_Some parsed -> dynamicSamplingContext md = parsed)) /\
    ((sentryTraceHeader = None \/
      exists h, sentryTraceHeader = Some h /\ extractTraceparentData h = None) ->
     continued (handleContext event) = no_traceparent /\
     dynamicSamplingContext md = parsed).
Proof.
  intros sentryTraceHeader parsed.
  split; [intros resolve hub; apply trace_finishes_context|].
  eexists. split; [reflexivity|].
  unfold handleContext. cbn [continued dynamicSamplingContext].
  fold parsed. unfold traceparentData. fold sentryTraceHeader. split.
  - intros h d -> Hd. rewrite (extract_nonempty _ _ Hd). cbn [default from_option id].
    rewrite Hd. split; [reflexivity|]. split.
    + intros ->. reflexivity.
    + intros [c ->]. reflexivity.
  - intros [->|(h & -> & Hno)].
    + cbn. destruct parsed; auto.
    + cbn [default from_option id]. destruct (truthy (Some h)); rewrite ?Hno;
        cbn; destruct parsed; auto.
Qed.

(** C8, amended: the span that a wrapped [load] opens and finishes around
    the call is named after the route id when there is a non-empty one and
    after the path name of the URL otherwise, and its operation is
    [function.sveltekit.load]. *)
Theorem load_span_name_and_op (event : load.LoadEvent) (origLoad : load.Load) (hub : Hub) :
  exists sp,
    last (finished (fst (load.wrapLoadWithSentry origLoad event hub))) = Some sp /\
    op (spanContext sp) = "function.sveltekit.load" /\
    name (spanContext sp)
    = match load.route_id event with
      | Some id => if decide (id = "") then load.url_pathname event else id
      | None => load.url_pathname event
      end.
Proof.
  destruct (trace_finishes_context (load.loadContext event)
              (fun _ h => origLoad (load.patchedEvent (client hub) event) h)
              (Some load.sendErrorToSentry) hub) as (sp & Hlast & Hctx).
  exists sp. split; [exact Hlast|]. rewrite Hctx. split; [reflexivity|].
  unfold load.loadContext. cbn [name].
  destruct (load.route_id event) as [id|]; [|reflexivity].
  rewrite truthy_Some. case_decide; reflexivity.
Qed.

End Contexts.

(** C7, the code at an event without a matched route: the span that
    [sentryHandle] opens is named after the text [null], the path of the URL
    is not used, and the source is still [route]. *)
Lemma handle_name_without_route_example :
  let event := exampleRequestEvent None [] in
  handle.route_id event = None /\
  handle.url_pathname event = "/users/123" /\
  name (@handleContext exampleCollaborators event) = "GET null" /\
  source <$> metadata (@handleContext exampleCollaborators event) = Some "route" /\
  (name ∘ spanContext)
    <$> last (finished (fst (@sentryHandle exampleCollaborators event
                               exampleResolve exampleHub)))
  = Some "GET null".
Proof. vm_compute. auto 6. Qed.

(** C8, as stated, fails: the operation of the span around [load] is not
    [function.load]. *)
Lemma load_span_op_counterexample :
  (op ∘ spanContext)
    <$> last (finished (fst (@load.wrapLoadWithSentry exampleCollaborators
                               (fun _ hub => (hub, Returned (Prim PNull)))
                               {| load.route_id := Some "/users/[id]";
                                  load.url_pathname := "/users/123";
                                  load.fetch := probeFetch |}
                               exampleHub)))
  = Some "function.sveltekit.load" /\
  "function.sveltekit.load" <> "function.load".
Proof. split; [vm_compute; reflexivity | discriminate]. Qed.

Lemma handle_freezes_dynamicSamplingContext_witness :
  dynamicSamplingContext
    <$> metadata
          (@handleContext exampleCollaborators
             (exampleRequestEvent (Some "/users/[id]")
                [("sentry-trace", "12312012123120121231201212312012-1121201211212012-1")]))
  = Some (Some ∅).
Proof.
  destruct (@handle_freezes_dynamicSamplingContext exampleCollaborators
              (exampleRequestEvent (Some "/users/[id]")
                 [("sentry-trace", "12312012123120121231201212312012-1121201211212012-1")]))
    as (_ & md & -> & Hparsed & _).
  destruct (Hparsed "12312012123120121231201212312012-1121201211212012-1"
                    {| traceId := Some "12312012123120121231201212312012";
                       parentSampled := Some true;
                       parentSpanId := Some "1121201211212012" |})
    as (_ & Hempty & _).
  - vm_compute. reflexivity.
  - vm_compute. reflexivity.
  - simpl. rewrite Hempty; [reflexivity|]. vm_compute. reflexivity.
Defined.

(* ===================================================================== *)
(** * Errors of the wrapped callbacks                                    *)
(* ===================================================================== *)

Section Errors.
Context `{Collaborators}.


End Errors.



(* ===================================================================== *)
(** * The instrumented fetch                                             *)
(* ===================================================================== *)

Section Fetch.
Context `{Collaborators}.

Lemma has_header_snoc key l v : 
  existsb (fun kv : string * string => String.eqb kv.1 key) (l ++ [(key, v)]) = true.
Proof. rewrite existsb_app. simpl. rewrite String.eqb_refl. now rewrite orb_true_r. Qed.

Lemma has_header_app key (l l' : list (string * string)) :
  existsb (fun kv : string * string => String.eqb kv.1 key) l = true ->
  existsb (fun kv : string * string => String.eqb kv.1 key) (l ++ l') = true.
Proof. intros Hl. now rewrite existsb_app, Hl. Qed.

(** Whatever the shape of the container, the result carries the
    [sentry-trace] header. *)
Lemma injected_sentry_trace request dsc span o :
  has_header "sentry-trace" (addTracingHeadersToFetchRequest request dsc span o) = true.
Proof.
  assert (forall hc t b,
             has_header "sentry-trace" (merge_into_object hc t b) = true) as Hmerge.
  { intros. unfold merge_into_object. cbn [has_header]. apply bool_decide_eq_true.
    rewrite lookup_insert_ne by discriminate. rewrite lookup_insert_eq. eauto. }
  unfold addTracingHeadersToFetchRequest.
  destruct (match request with Url _ => o | RequestObject r => _ end) as [[h|l|m]|].
  - destruct (has_Headers globals); [|apply Hmerge].
    cbn [has_header]. unfold Headers_append.
    destruct (truthy _); [apply has_header_app|]; apply has_header_snoc.
  - cbn [has_header]. destruct (truthy _); [apply has_header_app|]; apply has_header_snoc.
  - apply Hmerge.
  - cbn [has_header]. apply bool_decide_eq_true.
    rewrite lookup_insert_ne by discriminate. rewrite lookup_insert_eq. eauto.
Qed.

Lemma newBaggageHeaders_entries existing fragment :
  newBaggageHeaders existing fragment
  = match existing with
    | HArray l => l
    | HString s => if decide (s = "") then [] else [s]
    | HUndefined => []
    end ++
    match fragment with
    | Some b => if decide (b = "") then [] else [b]
    | None => []
    end.
Proof.
  unfold newBaggageHeaders. f_equal.
  - destruct existing; try reflexivity. now rewrite truthy_Some; case_decide.
  - destruct fragment; [|reflexivity]. now rewrite truthy_Some; case_decide.
Qed.

Lemma nonempty_choice {A B} (l : list A) (x y : B) :
  (if decide (0 < length l) then x else y) = match l with [] => y | _ :: _ => x end.
Proof. destruct l; case_decide as Hl; simpl in Hl; solve [reflexivity | lia]. Qed.

Lemma appended_pairs (acc : list (string * string)) (t : string) (fragment : option string) :
  (if truthy fragment
   then (acc ++ [("sentry-trace", t)]) ++ [("baggage", default "" fragment)]
   else acc ++ [("sentry-trace", t)])
  = acc ++ ("sentry-trace", t) ::
           match fragment with
           | Some b => if decide (b = "") then [] else [("baggage", b)]
           | None => []
           end.
Proof.
  destruct fragment as [b|]; [|reflexivity].
  rewrite truthy_Some. case_decide; [reflexivity|]. now rewrite <- app_assoc.
Qed.

(** With a non-empty fragment the result carries a [baggage] header,
    whatever the shape of the container. *)
Lemma injected_baggage request dsc span o b :
  dynamicSamplingContextToSentryBaggageHeader dsc = Some b -> b <> "" ->
  has_header "baggage" (addTracingHeadersToFetchRequest request dsc span o) = true.
Proof.
  intros Hfrag Hb.
  assert (truthy (Some b) = true) as Ht by (rewrite truthy_Some; now case_decide).
  assert (forall hc t,
             has_header "baggage" (merge_into_object hc t (Some b)) = true) as Hmerge.
  { intros. unfold merge_into_object. cbn [has_header]. apply bool_decide_eq_true.
    rewrite lookup_insert_eq. eauto. }
  unfold addTracingHeadersToFetchRequest. rewrite Hfrag.
  destruct (match request with Url _ => o | RequestObject r => _ end) as [[h|l|m]|].
  - destruct (has_Headers globals); [|apply Hmerge].
    cbn [has_header]. unfold Headers_append. rewrite Ht. apply has_header_snoc.
  - cbn [has_header]. rewrite Ht. apply has_header_snoc.
  - apply Hmerge.
  - cbn [has_header]. apply bool_decide_eq_true. rewrite lookup_insert_eq. eauto.
Qed.

(** C5: the headers handed to the underlying fetch differ from the caller's
    only when fetch tracing is enabled and the URL matches the propagation
    targets; the default targets are the URLs that contain [localhost] and
    those that start with [/].  With the targets [["localhost"]], tracing
    and span creation enabled and an active transaction, a fetch to
    [https://localhost/api] is issued with the injected headers: a
    [sentry-trace] header and, for a non-empty fragment, a [baggage] header.
    For a URL input these are, in a plain object of the caller, the
    traceparent of the span under [sentry-trace] and under [baggage] the
    caller's baggage entries and the fragment joined by commas, with the
    caller's other headers as they were; without headers of the caller, the
    traceparent and the fragment; in an array of the caller, the two pairs
    after the caller's.  A fetch to [https://evil.example] is issued with
    the caller's init unchanged.  Neither is taken for a request of the SDK
    itself. *)
Theorem headers_attached_only_to_targets (client : Client) (args : FetchArgs) (hub : Hub) :
  (init_headers (load.patchedInit client args hub) <> (init args ≫= init_headers) ->
   load.shouldTraceFetch client = true /\
   stringMatchesSomePattern (getFetchUrl args)
     (default load.defaultTracePropagationTargets
              (BrowserTracing client ≫= tracePropagationTargets)) = true) /\
  (forall u, stringMatchesSomePattern u load.defaultTracePropagationTargets
             = includes "localhost" u || String.prefix "/" u) /\
  (forall opts span tx,
      BrowserTracing client = Some opts ->
      traceFetch opts = true ->
      tracePropagationTargets opts = Some [PStr "localhost"] ->
      load.shouldCreateSpan client (getFetchUrl args) = true ->
      scope_span hub = Some span ->
      transaction span = Some tx ->
      let fragment :=
        dynamicSamplingContextToSentryBaggageHeader (getDynamicSamplingContext tx) in
      let injected :=
        match fragment with
        | Some b => if decide (b = "") then [] else [b]
        | None => []
        end in
      (getFetchUrl args = "https://localhost/api" ->
       load.isSentryRequest args = false /\
       exists hs,
         init_headers (load.patchedInit client args hub) = Some hs /\
         hs = addTracingHeadersToFetchRequest (input args)
                (getDynamicSamplingContext tx) span (init args ≫= init_headers) /\
         has_header "sentry-trace" hs = true /\
         (forall b, fragment = Some b -> b <> "" -> has_header "baggage" hs = true) /\
         (forall u (m : gmap string HeaderValue),
             input args = Url u ->
             init args ≫= init_headers = Some (PlainObject m) ->
             let entries :=
               match default HUndefined (m !! "baggage") with
               | HArray l => l
               | HString s => if decide (s = "") then [] else [s]
               | HUndefined => []
               end ++ injected in
             exists m' : gmap string HeaderValue,
               hs = PlainObject m' /\
               m' !! "sentry-trace" = Some (HString (toTraceparent span)) /\
               m' !! "baggage"
               = Some match entries with
                      | [] => HUndefined
                      | _ :: _ => HString (join_commas entries)
                      end /\
               forall k, k <> "sentry-trace" -> k <> "baggage" -> m' !! k = m !! k) /\
         (forall u,
             input args = Url u ->
             init args ≫= init_headers = None ->
             exists m' : gmap string HeaderValue,
               hs = PlainObject m' /\
               m' !! "sentry-trace" = Some (HString (toTraceparent span)) /\
               (forall b, fragment = Some b -> b <> "" ->
                          m' !! "baggage" = Some (HString b))) /\
         (forall u l,
             input args = Url u ->
             init args ≫= init_headers = Some (PairArray l) ->
             hs = PairArray
                    (l ++ ("sentry-trace", toTraceparent span)
                       :: ((fun b => ("baggage", b)) <$> injected)))) /\
      (getFetchUrl args = "https://evil.example" ->
       load.isSentryRequest args = false /\
       load.patchedInit client args hub
       = default {| init_method := None; init_headers := None |} (init args))).
Proof.
  split; [|split].
  - unfold load.patchedInit, load.shouldAttachHeaders.
    destruct (scope_span hub) as [span|]; cbn [mbind option_bind];
      [|destruct (init args); intros Hne; now contradiction Hne].
    destruct (transaction span) as [tx|];
      [|destruct (init args); intros Hne; now contradiction Hne].
    destruct (load.shouldTraceFetch client); cbn [andb];
      [|destruct (init args); intros Hne; now contradiction Hne].
    destruct (stringMatchesSomePattern _ _); cbn [andb];
      [auto | destruct (init args); intros Hne; now contradiction Hne].
  - intros u. unfold stringMatchesSomePattern, load.defaultTracePropagationTargets.
    simpl. now rewrite orb_false_r.
  - intros opts span tx Hopts Htrace Htargets Hspan Hscope Htx fragment injected.
    unfold load.patchedInit, load.shouldAttachHeaders, load.shouldTraceFetch.
    rewrite Hscope, Hopts. cbn [mbind option_bind]. rewrite Htx, Htrace, Htargets, Hspan.
    cbn [default from_option id andb]. unfold load.isSentryRequest.
    split; intros ->; (split; [reflexivity|]).
    + replace (stringMatchesSomePattern "https://localhost/api" [PStr "localhost"])
        with true by (vm_compute; reflexivity).
      exists (addTracingHeadersToFetchRequest (input args)
                (getDynamicSamplingContext tx) span (init args ≫= init_headers)).
      split; [destruct (init args); reflexivity|]. split; [reflexivity|].
      split; [apply injected_sentry_trace|].
      split; [intros b Hb Hne; now apply (injected_baggage _ _ _ _ b)|].
      split; [|split].
      * intros u m Hin Hh. rewrite Hin, Hh. cbv zeta.
        unfold addTracingHeadersToFetchRequest, merge_into_object.
        cbn [own_properties]. fold fragment.
        rewrite newBaggageHeaders_entries. fold injected.
        rewrite nonempty_choice.
        eexists. split; [reflexivity|]. split; [|split].
        -- rewrite lookup_insert_ne by discriminate. apply lookup_insert_eq.
        -- apply lookup_insert_eq.
        -- intros k Ht Hb. now rewrite !lookup_insert_ne by congruence.
      * intros u Hin Hh. rewrite Hin, Hh.
        unfold addTracingHeadersToFetchRequest. fold fragment.
        eexists. split; [reflexivity|]. split.
        -- rewrite lookup_insert_ne by discriminate. apply lookup_insert_eq.
        -- intros b -> _. apply lookup_insert_eq.
      * intros u l Hin Hh. rewrite Hin, Hh.
        unfold addTracingHeadersToFetchRequest. fold fragment.
        rewrite appended_pairs. unfold injected.
        destruct fragment as [b|]; [|reflexivity]. now case_decide.
    + replace (stringMatchesSomePattern "https://evil.example" [PStr "localhost"])
        with false by (vm_compute; reflexivity).
      reflexivity.
Qed.

(** C6: a call whose URL contains [sentry_key] and whose method is POST is
    the call of the original fetch with the caller's own arguments: nothing
    else happens, so no span, no header and no breadcrumb is added.  Every
    other call goes to the original fetch with the patched init; when spans
    are created for the URL an [http.client] span named after the method
    and the sanitized URL is finished, and when fetch breadcrumbs are on a
    [fetch] breadcrumb is recorded last. *)
Theorem sentry_requests_bypass (client : Client) (originalFetch : load.SvelteKitFetch)
        (args : FetchArgs) (hub : Hub) :
  let rawUrl := getFetchUrl args in
  let method := getFetchMethod args in
  let sanitizedUrl := stripUrlQueryAndFragment rawUrl in
  let result := load.instrumentSvelteKitFetch client originalFetch args hub in
  (includes "sentry_key" rawUrl = true /\ method = "POST" ->
   result = originalFetch args hub) /\
  (~ (includes "sentry_key" rawUrl = true /\ method = "POST") ->
   let call := {| input := input args; init := Some (load.patchedInit client args hub) |} in
   (load.shouldCreateSpan client rawUrl = false ->
    load.shouldAddFetchBreadcrumbs client = false ->
    result = originalFetch call hub) /\
   (load.shouldCreateSpan client rawUrl = true ->
    exists sp,
      last (finished (fst result)) = Some sp /\
      op (spanContext sp) = "http.client" /\
      name (spanContext sp) = method +:+ " " +:+ sanitizedUrl) /\
   (load.shouldAddFetchBreadcrumbs client = true ->
    exists b,
      last (breadcrumbs (fst result)) = Some b /\
      category b = "fetch" /\ crumb_method b = method /\ crumb_url b = sanitizedUrl)).
Proof.
  intros rawUrl method sanitizedUrl result. split.
  - intros [Hurl Hm]. unfold result, load.instrumentSvelteKitFetch, load.isSentryRequest.
    fold rawUrl method. rewrite Hurl, Hm. reflexivity.
  - intros Hno call.
    assert (load.isSentryRequest args = false) as Hnot.
    { unfold load.isSentryRequest. apply not_true_is_false. intros Hb.
      apply andb_true_iff in Hb as [Hu Hm]. apply String.eqb_eq in Hm. now apply Hno. }
    unfold result, load.instrumentSvelteKitFetch. rewrite Hnot.
    fold rawUrl method sanitizedUrl call. repeat split.
    + intros -> ->. reflexivity.
    + intros ->. unfold trace.
      destruct (originalFetch call _) as [h' [r|err]];
        destruct (load.shouldAddFetchBreadcrumbs client);
        cbn -[startSpan]; rewrite last_snoc; eexists; (split; [reflexivity|]);
        cbn -[startSpan]; rewrite spanContext_startSpan; split; reflexivity.
    + intros ->.
      destruct (if load.shouldCreateSpan client rawUrl then _ else _) as [h' [r|err]];
        cbn; rewrite last_snoc; eexists; (split; [reflexivity|]); repeat split.
Qed.

End Fetch.

Lemma headers_attached_only_to_targets_witness :
  snd (@load.instrumentSvelteKitFetch exampleCollaborators exampleClient probeFetch
         (exampleFetchArgs "https://localhost/api" None) exampleHub)
  = Returned {| response_status := 200 |} /\
  snd (@load.instrumentSvelteKitFetch exampleCollaborators exampleClient probeFetch
         (exampleFetchArgs "https://evil.example" None) exampleHub)
  = Returned {| response_status := 204 |} /\
  exists m' : gmap string HeaderValue,
    init_headers
      (@load.patchedInit exampleCollaborators exampleClient
         (exampleFetchArgs "https://localhost/api" None) exampleHub)
    = Some (PlainObject m') /\
    m' !! "sentry-trace"
    = Some (HString "12312012123120121231201212312012-1121201211212012-1") /\
    m' !! "baggage" = Some (HString "sentry-trace_id=abc") /\
    m' !! "x" = Some (HString "1").
Proof.
  split; [vm_compute; reflexivity|]. split; [vm_compute; reflexivity|].
  destruct (@headers_attached_only_to_targets exampleCollaborators exampleClient
              (exampleFetchArgs "https://localhost/api" None) exampleHub)
    as (_ & _ & Hparticular).
  destruct (Hparticular _ exampleSpan {| getDynamicSamplingContext := {[ "trace_id" := "abc" ]} |}
                        eq_refl eq_refl eq_refl eq_refl eq_refl eq_refl)
    as [Hlocal _].
  destruct (Hlocal eq_refl) as (_ & hs & Hhs & _ & _ & _ & Hplain & _).
  destruct (Hplain "https://localhost/api" {[ "x" := HString "1" ]} eq_refl eq_refl)
    as (m' & -> & Htrace & Hbaggage & Hother).
  exists m'. split; [exact Hhs|]. split; [exact Htrace|]. split.
  - rewrite Hbaggage. vm_compute. reflexivity.
  - rewrite Hother by discriminate. vm_compute. reflexivity.
Defined.

Lemma sentry_requests_bypass_witness :
  @load.instrumentSvelteKitFetch exampleCollaborators exampleClient probeFetch
    (exampleFetchArgs "https://localhost/api/1/envelope/?sentry_key=abc" (Some "POST"))
    exampleHub
  = probeFetch
      (exampleFetchArgs "https://localhost/api/1/envelope/?sentry_key=abc" (Some "POST"))
      exampleHub.
Proof.
  apply (@sentry_requests_bypass exampleCollaborators exampleClient probeFetch
           (exampleFetchArgs "https://localhost/api/1/envelope/?sentry_key=abc" (Some "POST"))
           exampleHub).
  split; vm_compute; reflexivity.
Defined.

(* ===================================================================== *)
(** * Further properties of the traceparent parser                       *)
(* ===================================================================== *)

Lemma string_of_list_ascii_app (a b : list ascii) :
  string_of_list_ascii (a ++ b) = string_of_list_ascii a +:+ string_of_list_ascii b.
Proof.
  induction a as [|c a IH]; [reflexivity|].
  change (String c (string_of_list_ascii (a ++ b))
          = String c (string_of_list_ascii a +:+ string_of_list_ascii b)).
  now rewrite IH.
Qed.

Lemma list_ascii_of_string_app (a b : string) :
  list_ascii_of_string (a +:+ b) = list_ascii_of_string a ++ list_ascii_of_string b.
Proof.
  induction a as [|c a IH]; [reflexivity|].
  change (c :: list_ascii_of_string (a +:+ b)
          = c :: (list_ascii_of_string a ++ list_ascii_of_string b)).
  now rewrite IH.
Qed.

Lemma length_string_of_list_ascii (x : list ascii) :
  String.length (string_of_list_ascii x) = length x.
Proof. induction x as [|c x IH]; simpl; [reflexivity | now rewrite IH]. Qed.

Lemma bit_is_hex a : bit a = true -> hex a = true.
Proof. by_cases_on_char a. Qed.

(** The parser on a non-empty string, by the shape of the string. *)
Lemma extract_of_skeleton s t p f :
  s <> "" ->
  traceparent_skeleton blank (list_ascii_of_string s) t p f ->
  extractTraceparentData s = Some (data_of t p f).
Proof.
  intros Hs Hsk. destruct s as [|a s]; [congruence|].
  now rewrite extractTraceparentData_unfold, (regexp_complete _ _ _ _ Hsk).
Qed.

Lemma skeleton_of_extract s d :
  extractTraceparentData s = Some d ->
  s <> "" /\
  exists t p f,
    traceparent_skeleton blank (list_ascii_of_string s) t p f /\ d = data_of t p f.
Proof.
  destruct s as [|a s]; [discriminate|].
  rewrite extractTraceparentData_unfold.
  destruct (match_anchored _ _) as [m|] eqn:Hm; [|discriminate].
  intros [= <-]. split; [discriminate|].
  exists (group1 m), (group2 m), (group3 m). split; [now apply regexp_sound | reflexivity].
Qed.

(** X1: the parser reads back the serialized form
    [<traceId>-<spanId>-<flag>]: for every trace id of 32 and span id of 16
    lowercase hexadecimal digits it returns exactly these two ids with the
    flag as a boolean, and without the flag the same ids with the sampling
    decision absent. *)
Theorem extract_reads_serialized_traceparent (t p : list ascii) (sampled : bool) :
  length t = 32 -> forallb hex t = true ->
  length p = 16 -> forallb hex p = true ->
  extractTraceparentData
    (string_of_list_ascii t +:+ "-" +:+ string_of_list_ascii p +:+ "-" +:+
     (if sampled then "1" else "0"))
  = Some {| traceId := Some (string_of_list_ascii t);
            parentSampled := Some sampled;
            parentSpanId := Some (string_of_list_ascii p) |} /\
  extractTraceparentData (string_of_list_ascii t +:+ "-" +:+ string_of_list_ascii p)
  = Some {| traceId := Some (string_of_list_ascii t);
            parentSampled := None;
            parentSpanId := Some (string_of_list_ascii p) |}.
Proof.
  intros Hlt Ht Hlp Hp.
  assert (forall rest, string_of_list_ascii t +:+ rest <> "") as Hne.
  { intros rest. destruct t; [discriminate | discriminate]. }
  split.
  - rewrite (extract_of_skeleton _ (Some t) (Some p)
               (Some [if sampled then "1" else "0"]%char)).
    + unfold data_of. destruct sampled; reflexivity.
    + apply Hne.
    + exists [], ["-"%char], ["-"%char], [].
      rewrite !list_ascii_of_string_app, !list_ascii_of_string_of_list_ascii.
      split; [destruct sampled; reflexivity|].
      repeat split; try assumption; try (now right).
      now destruct sampled.
  - rewrite (extract_of_skeleton _ (Some t) (Some p) None).
    + reflexivity.
    + apply Hne.
    + exists [], ["-"%char], [], [].
      rewrite !list_ascii_of_string_app, !list_ascii_of_string_of_list_ascii.
      split; [simpl; now rewrite app_nil_r|].
      repeat split; try assumption; solve [now right | now left].
Qed.

Lemma extract_reads_serialized_traceparent_witness :
  extractTraceparentData "12312012123120121231201212312012-1121201211212012-0"
  = Some {| traceId := Some "12312012123120121231201212312012";
            parentSampled := Some false;
            parentSpanId := Some "1121201211212012" |}.
Proof.
  apply (extract_reads_serialized_traceparent
           (list_ascii_of_string "12312012123120121231201212312012")
           (list_ascii_of_string "1121201211212012") false);
    vm_compute; reflexivity.
Defined.

Lemma includes_in_chars (a x b : list ascii) s :
  list_ascii_of_string s = a ++ x ++ b ->
  includes (string_of_list_ascii x) s = true.
Proof.
  intros Hs. rewrite <- (string_of_list_ascii_of_string s), Hs.
  rewrite !string_of_list_ascii_app. apply includes_middle.
Qed.

(** X2: what a successful parse returns.  A trace id is always 32 lowercase
    hexadecimal digits and a parent span id always 16, and both are pieces
    of the header as it was given; a sampling decision is only returned for
    a header that contains the digit it stands for. *)
Theorem extract_returns_well_formed_ids (s : string) (d : TraceparentData) :
  extractTraceparentData s = Some d ->
  (forall x, traceId d = Some x ->
             String.length x = 32 /\
             forallb hex (list_ascii_of_string x) = true /\
             includes x s = true) /\
  (forall y, parentSpanId d = Some y ->
             String.length y = 16 /\
             forallb hex (list_ascii_of_string y) = true /\
             includes y s = true) /\
  (forall b, parentSampled d = Some b -> includes (if b then "1" else "0") s = true).
Proof.
  intros Hd. apply skeleton_of_extract in Hd as (_ & t & p & f & Hsk & ->).
  destruct Hsk as (w1 & h1 & h2 & w2 & Hs & _ & _ & _ & _ & Ht & Hp & Hf).
  split; [|split].
  - intros x Hx. destruct t as [t|]; [|discriminate]. injection Hx as <-.
    destruct Ht as [Hl Hh].
    rewrite length_string_of_list_ascii, list_ascii_of_string_of_list_ascii.
    split; [assumption|]. split; [assumption|].
    now apply (includes_in_chars w1 t (h1 ++ text p ++ h2 ++ text f ++ w2)).
  - intros y Hy. destruct p as [p|]; [|discriminate]. injection Hy as <-.
    destruct Hp as [Hl Hh].
    rewrite length_string_of_list_ascii, list_ascii_of_string_of_list_ascii.
    split; [assumption|]. split; [assumption|].
    apply (includes_in_chars (w1 ++ text t ++ h1) p (h2 ++ text f ++ w2)).
    rewrite Hs. simpl. now rewrite <- !app_assoc.
  - intros b Hb. cbn [parentSampled data_of] in Hb.
    assert (f = Some (list_ascii_of_string (if b then "1" else "0"))) as ->.
    { destruct b; [now apply sampled_of_true | now apply sampled_of_false]. }
    replace (if b then "1" else "0")
      with (string_of_list_ascii (list_ascii_of_string (if b then "1" else "0")))
      by apply string_of_list_ascii_of_string.
    apply (includes_in_chars (w1 ++ text t ++ h1 ++ text p ++ h2) _ w2).
    rewrite Hs. simpl. now rewrite <- !app_assoc.
Qed.

Lemma extract_returns_well_formed_ids_witness :
  includes "12312012123120121231201212312012"
           " 12312012123120121231201212312012-1121201211212012-1" = true.
Proof.
  destruct (extract_returns_well_formed_ids
              " 12312012123120121231201212312012-1121201211212012-1"
              {| traceId := Some "12312012123120121231201212312012";
                 parentSampled := Some true;
                 parentSpanId := Some "1121201211212012" |})
    as (Hid & _ & _); [vm_compute; reflexivity|].
  destruct (Hid "12312012123120121231201212312012" eq_refl) as (_ & _ & Hin).
  exact Hin.
Defined.

(** X3: the parser never accepts a header with a character other than a
    lowercase hexadecimal digit, a hyphen, a space or a tab; in particular
    upper-case hexadecimal digits, commas and line breaks make it return no
    data. *)
Theorem extract_rejects_foreign_characters (s : string) (c : ascii) :
  In c (list_ascii_of_string s) ->
  hex c = false -> blank c = false -> dash c = false ->
  extractTraceparentData s = None.
Proof.
  intros Hin Hhex Hblank Hdash.
  destruct (extractTraceparentData s) as [d|] eqn:Hd; [exfalso|reflexivity].
  apply skeleton_of_extract in Hd as (_ & t & p & f & Hsk & _).
  destruct Hsk as (w1 & h1 & h2 & w2 & Hs & Hw1 & Hw2 & Hh1 & Hh2 & Ht & Hp & Hf).
  assert (forall cls (l : list ascii),
             forallb cls l = true -> In c l -> cls c = true) as Hall.
  { intros cls l Hl Hc. rewrite forallb_forall in Hl. auto. }
  assert (forall n o, optional_group n hex o -> In c (text o) -> False) as Hgroup.
  { intros n [x|] Ho Hc; [|destruct Hc]. destruct Ho as [_ Hx].
    specialize (Hall hex x Hx Hc). congruence. }
  assert (forall h, optional_hyphen h -> In c h -> False) as Hhyphen.
  { intros h [->| ->] Hc; [destruct Hc|]. destruct Hc as [<-|[]]. discriminate. }
  rewrite Hs in Hin. repeat (apply in_app_or in Hin as [Hin|Hin]).
  - specialize (Hall blank w1 Hw1 Hin). congruence.
  - eauto.
  - eauto.
  - eauto.
  - eauto.
  - destruct f as [x|]; [|destruct Hin]. destruct Hf as [_ Hx].
    specialize (Hall bit x Hx Hin). apply bit_is_hex in Hall. congruence.
  - specialize (Hall blank w2 Hw2 Hin). congruence.
Qed.

Lemma extract_rejects_foreign_characters_witness :
  extractTraceparentData "12312012123120121231201212312012-1121201211212012-1,x" = None.
Proof.
  apply (extract_rejects_foreign_characters _ ","%char);
    [vm_compute; auto 60 | reflexivity | reflexivity | reflexivity].
Defined.

(** X4: blanks around a header do not change what is parsed: when a header
    parses, so does the header with spaces and tabs put before and after
    it, and to the same data. *)
Theorem extract_ignores_surrounding_blanks (s b1 b2 : string) (d : TraceparentData) :
  extractTraceparentData s = Some d ->
  forallb blank (list_ascii_of_string b1) = true ->
  forallb blank (list_ascii_of_string b2) = true ->
  extractTraceparentData (b1 +:+ s +:+ b2) = Some d.
Proof.
  intros Hd Hb1 Hb2. apply skeleton_of_extract in Hd as (Hne & t & p & f & Hsk & ->).
  apply extract_of_skeleton.
  - destruct b1; [|discriminate]. destruct s; [congruence | discriminate].
  - destruct Hsk as (w1 & h1 & h2 & w2 & Hs & Hw1 & Hw2 & Hrest).
    exists (list_ascii_of_string b1 ++ w1), h1, h2, (w2 ++ list_ascii_of_string b2).
    rewrite !list_ascii_of_string_app, Hs, !forallb_app, Hb1, Hb2, Hw1, Hw2.
    split; [now rewrite <- !app_assoc|]. auto.
Qed.

Lemma extract_ignores_surrounding_blanks_witness :
  extractTraceparentData "  12312012123120121231201212312012-1121201211212012-1 "
  = Some {| traceId := Some "12312012123120121231201212312012";
            parentSampled := Some true;
            parentSpanId := Some "1121201211212012" |}.
Proof.
  apply (extract_ignores_surrounding_blanks
           "12312012123120121231201212312012-1121201211212012-1" "  " " ");
    vm_compute; reflexivity.
Defined.

Lemma filter_blanks_nil (w : list ascii) :
  forallb blank w = true -> List.filter (fun c => negb (blank c)) w = [].
Proof.
  induction w as [|a w IH]; simpl; [reflexivity|].
  intros [Ha Hw]%andb_true_iff. rewrite Ha. simpl. auto.
Qed.

(** X5: a header that parses has at most 51 characters that are not blanks
    (32 and 16 digits, two hyphens and the flag); a longer one is never
    accepted, however it is made up. *)
Theorem extract_bounds_header_length (s : string) (d : TraceparentData) :
  extractTraceparentData s = Some d ->
  length (List.filter (fun c => negb (blank c)) (list_ascii_of_string s)) <= 51.
Proof.
  intros Hd. apply skeleton_of_extract in Hd as (_ & t & p & f & Hsk & _).
  destruct Hsk as (w1 & h1 & h2 & w2 & -> & Hw1 & Hw2 & Hh1 & Hh2 & Ht & Hp & Hf).
  rewrite !List.filter_app, !length_app.
  rewrite (filter_blanks_nil w1 Hw1), (filter_blanks_nil w2 Hw2).
  pose proof (List.filter_length_le (fun c => negb (blank c)) (text t)).
  pose proof (List.filter_length_le (fun c => negb (blank c)) h1).
  pose proof (List.filter_length_le (fun c => negb (blank c)) (text p)).
  pose proof (List.filter_length_le (fun c => negb (blank c)) h2).
  pose proof (List.filter_length_le (fun c => negb (blank c)) (text f)).
  pose proof (group_length _ _ _ Ht). pose proof (group_length _ _ _ Hp).
  pose proof (group_length _ _ _ Hf).
  pose proof (hyphen_length _ Hh1). pose proof (hyphen_length _ Hh2).
  simpl. lia.
Qed.

Lemma extract_bounds_header_length_witness :
  length (List.filter (fun c => negb (blank c))
            (list_ascii_of_string
               " 12312012123120121231201212312012-1121201211212012-1")) <= 51.
Proof.
  apply (extract_bounds_header_length _
           {| traceId := Some "12312012123120121231201212312012";
              parentSampled := Some true;
              parentSpanId := Some "1121201211212012" |}).
  vm_compute. reflexivity.
Defined.

(* ===================================================================== *)
(** * Further properties of the header injection                         *)
(* ===================================================================== *)

Section InjectionShapes.
Context `{Collaborators}.

Lemma has_header_insert key k (v : HeaderValue) (m : gmap string HeaderValue) :
  bool_decide (is_Some (m !! key)) = true ->
  bool_decide (is_Some (<[k := v]> m !! key)) = true.
Proof.
  intros Hm%bool_decide_eq_true. apply bool_decide_eq_true.
  destruct (decide (k = key)) as [->|Hne].
  - rewrite lookup_insert_eq. eauto.
  - now rewrite lookup_insert_ne.
Qed.

(** X6: whatever the shape of the container the function injects into (the
    headers of a [Request] object, or else the headers of the options: a
    [Headers] object, an array of pairs or a plain object), the result has a
    [sentry-trace] header and every header name the container had: nothing
    is dropped. *)
Theorem injection_keeps_header_names
        (request : RequestInfo) (dsc : DynamicSamplingContext) (span : Span)
        (o : option HeaderContainer) (c : HeaderContainer) :
  match request with
  | RequestObject r => if has_Request globals then Some (HeadersObject (headers r)) else o
  | Url _ => o
  end = Some c ->
  (forall h, c = HeadersObject h -> has_Headers globals = true) ->
  has_header "sentry-trace" (addTracingHeadersToFetchRequest request dsc span o) = true /\
  forall key,
    has_header key c = true ->
    has_header key (addTracingHeadersToFetchRequest request dsc span o) = true.
Proof.
  intros Heff Hcls. split; [apply injected_sentry_trace|].
  intros key Hkey. unfold addTracingHeadersToFetchRequest. rewrite Heff.
  destruct c as [h|l|m].
  - rewrite (Hcls h eq_refl). cbn [has_header] in *. unfold Headers_append.
    destruct (truthy _); repeat apply has_header_app; assumption.
  - cbn [has_header] in *.
    destruct (truthy _); repeat apply has_header_app; assumption.
  - unfold merge_into_object. cbn [has_header own_properties] in *.
    now do 2 apply has_header_insert.
Qed.

(** X7: for an array of pairs the entries that were there stay where they
    are, in their order, and the new ones come after them: one
    [sentry-trace] pair, followed by one [baggage] pair exactly when the
    fragment is a non-empty string.  Pairs of the same names that were
    already there are neither merged nor replaced. *)
Theorem injection_appends_to_sequences
        (request : RequestInfo) (dsc : DynamicSamplingContext) (span : Span)
        (o : option HeaderContainer) (l : list (string * string)) :
  let effective :=
    match request with
    | RequestObject r => if has_Request globals then Some (HeadersObject (headers r)) else o
    | Url _ => o
    end in
  let appended :=
    ("sentry-trace", toTraceparent span) ::
    match dynamicSamplingContextToSentryBaggageHeader dsc with
    | Some b => if decide (b = "") then [] else [("baggage", b)]
    | None => []
    end in
  effective = Some (PairArray l) ->
  addTracingHeadersToFetchRequest request dsc span o = PairArray (l ++ appended) /\
  (forall i kv, l !! i = Some kv -> (l ++ appended) !! i = Some kv).
Proof.
  intros effective appended Heff.
  assert (forall acc : list (string * string),
             (if truthy (dynamicSamplingContextToSentryBaggageHeader dsc)
              then (acc ++ [("sentry-trace", toTraceparent span)])
                     ++ [("baggage", default "" (dynamicSamplingContextToSentryBaggageHeader dsc))]
              else acc ++ [("sentry-trace", toTraceparent span)])
             = acc ++ appended) as Happ.
  { intros acc. unfold appended.
    destruct (dynamicSamplingContextToSentryBaggageHeader dsc) as [b|]; [|reflexivity].
    rewrite truthy_Some. case_decide; [reflexivity|]. now rewrite <- app_assoc. }
  split.
  - unfold addTracingHeadersToFetchRequest. fold effective.
    rewrite Heff. now rewrite Happ.
  - intros i kv Hi. now apply lookup_app_l_Some.
Qed.

Lemma join_commas_snoc_nonempty (l : list string) b :
  b <> "" -> join_commas (l ++ [b]) <> "".
Proof.
  intros Hb. unfold join_commas. induction l as [|x l IH]; [exact Hb|].
  change ((x :: l) ++ [b]) with (x :: (l ++ [b])).
  destruct (l ++ [b]) as [|y l'] eqn:Hl; [now destruct l|].
  rewrite concat_cons. destruct x; discriminate.
Qed.

(** X8: injecting twice into a plain object.  The second injection keeps
    every key and the [sentry-trace] value of the first, but it adds the
    baggage fragment again: the baggage of the first result, a comma, and
    the fragment once more. *)
Theorem repeated_injection_appends_fragment_again
        (request : RequestInfo) (dsc : DynamicSamplingContext) (span : Span)
        (m : gmap string HeaderValue) (b : string) :
  (forall r, request = RequestObject r -> has_Request globals = false) ->
  dynamicSamplingContextToSentryBaggageHeader dsc = Some b ->
  b <> "" ->
  let once := addTracingHeadersToFetchRequest request dsc span (Some (PlainObject m)) in
  let twice := addTracingHeadersToFetchRequest request dsc span (Some once) in
  exists v,
    own_properties once !! "baggage" = Some (HString v) /\
    own_properties twice !! "baggage" = Some (HString (v +:+ "," +:+ b)) /\
    forall key, key <> "baggage" ->
                own_properties twice !! key = own_properties once !! key.
Proof.
  intros Hreq Hfrag Hb once twice.
  assert (truthy (Some b) = true) as Htb by (rewrite truthy_Some; now case_decide).
  assert (forall existing,
             exists pre, newBaggageHeaders existing (Some b) = pre ++ [b]) as Hnew.
  { intros existing. unfold newBaggageHeaders. rewrite Htb. eauto. }
  destruct (Hnew (default HUndefined (m !! "baggage"))) as (pre & Hpre).
  set (v := join_commas (pre ++ [b])).
  assert (v <> "") as Hv by now apply join_commas_snoc_nonempty.
  assert (once = PlainObject
                   (<["baggage" := HString v]>
                      (<["sentry-trace" := HString (toTraceparent span)]> m))) as Honce.
  { unfold once, addTracingHeadersToFetchRequest.
    rewrite (effective_headers _ _ Hreq), Hfrag.
    unfold merge_into_object. cbn [own_properties]. rewrite Hpre.
    case_decide as Hlen; [reflexivity|].
    rewrite length_app in Hlen. simpl in Hlen. lia. }
  assert (newBaggageHeaders (HString v) (Some b) = [v; b]) as Hagain.
  { unfold newBaggageHeaders. rewrite Htb, truthy_Some. now case_decide. }
  assert (twice = PlainObject
                    (<["baggage" := HString (v +:+ "," +:+ b)]>
                       (<["sentry-trace" := HString (toTraceparent span)]>
                          (own_properties once)))) as Htwice.
  { unfold twice, addTracingHeadersToFetchRequest.
    rewrite (effective_headers _ _ Hreq), Hfrag. rewrite Honce.
    unfold merge_into_object. cbn [own_properties].
    rewrite lookup_insert_eq. cbn [default from_option id]. rewrite Hagain.
    reflexivity. }
  exists v. rewrite Htwice, Honce. cbn [own_properties].
  rewrite !lookup_insert_eq. split; [reflexivity|]. split; [reflexivity|].
  intros key Hkey. rewrite (lookup_insert_ne _ "baggage" key) by congruence.
  destruct (decide (key = "sentry-trace")) as [->|Hst].
  - rewrite lookup_insert_eq, lookup_insert_ne by discriminate.
    now rewrite lookup_insert_eq.
  - now rewrite lookup_insert_ne by congruence.
Qed.

End InjectionShapes.

Lemma injection_keeps_header_names_witness :
  has_header "x"
    (@addTracingHeadersToFetchRequest exampleCollaborators
       (Url "https://localhost/api") {[ "trace_id" := "abc" ]} exampleSpan
       (Some (PairArray [("x", "1")]))) = true.
Proof.
  apply (@injection_keeps_header_names exampleCollaborators
           (Url "https://localhost/api") {[ "trace_id" := "abc" ]} exampleSpan
           (Some (PairArray [("x", "1")])) (PairArray [("x", "1")]));
    [reflexivity | intros h Hh; discriminate Hh | vm_compute; reflexivity].
Defined.

Lemma injection_appends_to_sequences_witness :
  @addTracingHeadersToFetchRequest exampleCollaborators
    (Url "https://localhost/api") {[ "trace_id" := "abc" ]} exampleSpan
    (Some (PairArray [("baggage", "a=1")]))
  = PairArray [("baggage", "a=1");
               ("sentry-trace", "12312012123120121231201212312012-1121201211212012-1");
               ("baggage", "sentry-trace_id=abc")].
Proof.
  destruct (@injection_appends_to_sequences exampleCollaborators
              (Url "https://localhost/api") {[ "trace_id" := "abc" ]} exampleSpan
              (Some (PairArray [("baggage", "a=1")])) [("baggage", "a=1")] eq_refl)
    as (Harray & _).
  rewrite Harray. vm_compute. reflexivity.
Defined.

Lemma repeated_injection_appends_fragment_again_witness :
  @own_properties exampleCollaborators
    (@addTracingHeadersToFetchRequest exampleCollaborators
       (Url "https://localhost/api") {[ "trace_id" := "abc" ]} exampleSpan
       (Some (@addTracingHeadersToFetchRequest exampleCollaborators
                (Url "https://localhost/api") {[ "trace_id" := "abc" ]} exampleSpan
                (Some (PlainObject {[ "baggage" := HString "a=1" ]})))))
    !! "baggage"
  = Some (HString "a=1,sentry-trace_id=abc,sentry-trace_id=abc").
Proof.
  destruct (@repeated_injection_appends_fragment_again exampleCollaborators
              (Url "https://localhost/api") {[ "trace_id" := "abc" ]} exampleSpan
              {[ "baggage" := HString "a=1" ]} "sentry-trace_id=abc")
    as (v & Honce & Htwice & _).
  - intros r Hr. discriminate Hr.
  - vm_compute. reflexivity.
  - discriminate.
  - rewrite Htwice. vm_compute in Honce. injection Honce as <-. reflexivity.
Defined.

(* ===================================================================== *)
(** * Further properties of the instrumented fetch                       *)
(* ===================================================================== *)

Section FetchGating.
Context `{Collaborators}.

Abbreviation emptyInit := {| init_method := None; init_headers := None |}.

Lemma patchedInit_cases (client : Client) (args : FetchArgs) (hub : Hub) :
  load.patchedInit client args hub = default emptyInit (init args) \/
  exists span tx,
    scope_span hub = Some span /\ transaction span = Some tx /\
    load.shouldAttachHeaders client (getFetchUrl args) = true /\
    load.shouldCreateSpan client (getFetchUrl args) = true /\
    load.patchedInit client args hub
    = {| init_method := init_method (default emptyInit (init args));
         init_headers :=
           Some (addTracingHeadersToFetchRequest (input args)
                   (getDynamicSamplingContext tx) span
                   (init_headers (default emptyInit (init args)))) |}.
Proof.
  unfold load.patchedInit.
  destruct (scope_span hub) as [span|]; [|now left]. cbn [mbind option_bind].
  destruct (transaction span) as [tx|] eqn:Htx; [|now left].
  destruct (load.shouldAttachHeaders client _) eqn:Ha; [|now left].
  destruct (load.shouldCreateSpan client _) eqn:Hs; [|now left].
  right. exists span, tx. repeat split; solve [reflexivity | assumption].
Qed.

Lemma copy_fields (o : option RequestInit) :
  init_method (default emptyInit o) = o ≫= init_method /\
  init_headers (default emptyInit o) = o ≫= init_headers.
Proof. destruct o; auto. Qed.

(** X9: the init handed to the underlying fetch never has another method
    than the caller's, and its headers are either the caller's own or a
    container that carries a [sentry-trace] header. *)
Theorem patched_init_keeps_method (client : Client) (args : FetchArgs) (hub : Hub) :
  init_method (load.patchedInit client args hub) = init args ≫= init_method /\
  (init_headers (load.patchedInit client args hub) = init args ≫= init_headers \/
   exists hs,
     init_headers (load.patchedInit client args hub) = Some hs /\
     has_header "sentry-trace" hs = true).
Proof.
  destruct (copy_fields (init args)) as [Hm Hh].
  destruct (patchedInit_cases client args hub)
    as [->|(span & tx & _ & _ & _ & _ & ->)].
  - auto.
  - split; [exact Hm|]. right. eexists. split; [reflexivity|].
    apply injected_sentry_trace.
Qed.

(** X10: tracing headers are only attached while a span with a transaction
    is on the scope, and only to requests for which a span is created; with
    no active transaction the caller's headers go out as they are. *)
Theorem headers_need_active_transaction (client : Client) (args : FetchArgs) (hub : Hub) :
  init_headers (load.patchedInit client args hub) <> (init args ≫= init_headers) ->
  (exists span tx, scope_span hub = Some span /\ transaction span = Some tx) /\
  load.shouldCreateSpan client (getFetchUrl args) = true /\
  exists opts, BrowserTracing client = Some opts /\ traceFetch opts = true.
Proof.
  intros Hne. destruct (copy_fields (init args)) as [_ Hh].
  destruct (patchedInit_cases client args hub)
    as [Hcopy|(span & tx & Hscope & Htx & Hattach & Hspan & _)].
  - rewrite Hcopy in Hne. contradiction.
  - split; [eauto|]. split; [assumption|].
    unfold load.shouldAttachHeaders, load.shouldTraceFetch in Hattach.
    destruct (BrowserTracing client) as [opts|]; [|discriminate].
    apply andb_true_iff in Hattach as [Htrace _]. eauto.
Qed.

(** X11: an allow-list that is given and empty is not replaced by the
    default targets: with it no request gets tracing headers, whatever its
    URL and whatever is on the scope. *)
Theorem empty_targets_attach_nothing (client : Client) (opts : BrowserTracingOptions)
        (args : FetchArgs) (hub : Hub) :
  BrowserTracing client = Some opts ->
  tracePropagationTargets opts = Some [] ->
  load.patchedInit client args hub = default emptyInit (init args).
Proof.
  intros Hopts Htargets.
  destruct (patchedInit_cases client args hub)
    as [Hcopy|(span & tx & _ & _ & Hattach & _)]; [assumption|].
  unfold load.shouldAttachHeaders in Hattach. rewrite Hopts in Hattach.
  cbn [mbind option_bind] in Hattach. rewrite Htargets in Hattach.
  cbn in Hattach. rewrite andb_false_r in Hattach. discriminate.
Qed.

(** X12: without the BrowserTracing integration the instrumented fetch only
    observes.  A request that is not one of the SDK's own reaches the
    original fetch with the caller's input and a copy of the caller's init,
    the outcome is the outcome of that call, and no span is created and no
    exception captured on the way. *)
Theorem without_browser_tracing_fetch_is_untouched
        (client : Client) (originalFetch : load.SvelteKitFetch)
        (args : FetchArgs) (hub : Hub) :
  BrowserTracing client = None ->
  load.isSentryRequest args = false ->
  let call := {| input := input args; init := Some (default emptyInit (init args)) |} in
  let result := load.instrumentSvelteKitFetch client originalFetch args hub in
  snd result = snd (originalFetch call hub) /\
  finished (fst result) = finished (fst (originalFetch call hub)) /\
  captured (fst result) = captured (fst (originalFetch call hub)) /\
  scope_span (fst result) = scope_span (fst (originalFetch call hub)).
Proof.
  intros Hnone Hnot call result.
  assert (load.shouldCreateSpan client (getFetchUrl args) = false) as Hspan.
  { unfold load.shouldCreateSpan, load.shouldTraceFetch. now rewrite Hnone. }
  assert (load.patchedInit client args hub = default emptyInit (init args)) as Hinit.
  { destruct (patchedInit_cases client args hub)
      as [Hcopy|(span & tx & _ & _ & _ & Hs & _)]; [assumption | congruence]. }
  unfold result, load.instrumentSvelteKitFetch.
  rewrite Hnot, Hspan, Hinit. fold call.
  destruct (load.shouldAddFetchBreadcrumbs client); [|auto].
  destruct (originalFetch call hub) as [h [r|e]]; cbn; auto.
Qed.

(** X13: the breadcrumb of a fetch for which no span is created.  With
    fetch breadcrumbs on, the outcome of the original fetch is passed on as
    it is and exactly one breadcrumb is added after those the call left: of
    type [http] and category [fetch], with the method and the sanitized
    URL, carrying the status code of a response, or the level [error] and
    no status code when the fetch failed. *)
Theorem fetch_breadcrumb_follows_outcome
        (client : Client) (originalFetch : load.SvelteKitFetch)
        (args : FetchArgs) (hub : Hub) :
  load.isSentryRequest args = false ->
  load.shouldCreateSpan client (getFetchUrl args) = false ->
  load.shouldAddFetchBreadcrumbs client = true ->
  let call := {| input := input args; init := Some (load.patchedInit client args hub) |} in
  let inner := originalFetch call hub in
  let result := load.instrumentSvelteKitFetch client originalFetch args hub in
  snd result = snd inner /\
  exists b,
    breadcrumbs (fst result) = breadcrumbs (fst inner) ++ [b] /\
    crumb_type b = "http" /\ category b = "fetch" /\
    crumb_method b = getFetchMethod args /\
    crumb_url b = stripUrlQueryAndFragment (getFetchUrl args) /\
    match snd inner with
    | Returned response =>
        level b = None /\ status_code b = Some (response_status response)
    | Thrown _ => level b = Some "error" /\ status_code b = None
    end.
Proof.
  intros Hnot Hspan Hcrumbs call inner result.
  unfold result, load.instrumentSvelteKitFetch.
  rewrite Hnot, Hspan, Hcrumbs. fold call. fold inner.
  destruct inner as [h [r|e]]; cbn; (split; [reflexivity|]);
    eexists; (split; [reflexivity|]); cbn; auto 10.
Qed.

End FetchGating.

Lemma headers_need_active_transaction_witness :
  load.shouldCreateSpan exampleClient "https://localhost/api" = true.
Proof.
  destruct (@headers_need_active_transaction exampleCollaborators exampleClient
              (exampleFetchArgs "https://localhost/api" None) exampleHub)
    as (_ & Hspan & _); [|exact Hspan].
  intros Heq. apply (f_equal (from_option (has_header "sentry-trace") false)) in Heq.
  vm_compute in Heq. discriminate Heq.
Defined.

Lemma empty_targets_attach_nothing_witness :
  let client :=
    {| BrowserTracing :=
         Some {| traceFetch := true; shouldCreateSpanForRequest := None;
                 tracePropagationTargets := Some [] |};
       BreadCrumbs := None |} in
  init_headers
    (@load.patchedInit exampleCollaborators client
       (exampleFetchArgs "https://localhost/api" None) exampleHub)
  = Some (PlainObject {[ "x" := HString "1" ]}).
Proof.
  intros client.
  rewrite (@empty_targets_attach_nothing exampleCollaborators client
             {| traceFetch := true; shouldCreateSpanForRequest := None;
                tracePropagationTargets := Some [] |}
             (exampleFetchArgs "https://localhost/api" None) exampleHub eq_refl eq_refl).
  reflexivity.
Defined.

Lemma without_browser_tracing_fetch_is_untouched_witness :
  snd (@load.instrumentSvelteKitFetch exampleCollaborators
         {| BrowserTracing := None; BreadCrumbs := Some {| breadcrumbs_fetch := true |} |}
         probeFetch (exampleFetchArgs "https://localhost/api" None) exampleHub)
  = Returned {| response_status := 204 |}.
Proof.
  destruct (@without_browser_tracing_fetch_is_untouched exampleCollaborators
              {| BrowserTracing := None; BreadCrumbs := Some {| breadcrumbs_fetch := true |} |}
              probeFetch (exampleFetchArgs "https://localhost/api" None) exampleHub
              eq_refl eq_refl)
    as (Hout & _).
  rewrite Hout. vm_compute. reflexivity.
Defined.

Lemma fetch_breadcrumb_follows_outcome_witness :
  exists b,
    last (breadcrumbs
            (fst (@load.instrumentSvelteKitFetch exampleCollaborators
                    {| BrowserTracing := None;
                       BreadCrumbs := Some {| breadcrumbs_fetch := true |} |}
                    (fun _ hub => (hub, Thrown (Obj (UserObject 1 "offline"))))
                    (exampleFetchArgs "https://localhost/api" None) exampleHub)))
    = Some b /\
    level b = Some "error" /\ status_code b = None.
Proof.
  destruct (@fetch_breadcrumb_follows_outcome exampleCollaborators
              {| BrowserTracing := None; BreadCrumbs := Some {| breadcrumbs_fetch := true |} |}
              (fun _ hub => (hub, Thrown (Obj (UserObject 1 "offline"))))
              (exampleFetchArgs "https://localhost/api" None) exampleHub
              eq_refl eq_refl eq_refl)
    as (_ & b & Hb & _ & _ & _ & _ & Hlevel & Hcode).
  exists b. rewrite Hb, last_snoc. auto.
Defined.

(* ===================================================================== *)
(** * Properties of the page chunk transformer                           *)
(* ===================================================================== *)

Lemma prefix_split n : forall h,
  String.prefix n h = true -> h = n +:+ page.drop_chars (String.length n) h.
Proof.
  induction n as [|a n IH]; intros h Hp; [reflexivity|].
  destruct h as [|b h]; [discriminate|]. simpl in Hp.
  destruct (ascii_dec a b) as [->|]; [|discriminate].
  change (String b h = String b (n +:+ page.drop_chars (String.length n) h)).
  now rewrite <- (IH h Hp).
Qed.

Lemma find_first_none needle : forall hay,
  includes needle hay = false -> page.find_first needle hay = None.
Proof.
  induction hay as [|c hay IH]; cbn [includes page.find_first];
    intros [Hp Hrest]%orb_false_iff; rewrite Hp; [reflexivity|].
  now rewrite (IH Hrest).
Qed.

Lemma find_first_some needle : forall hay,
  includes needle hay = true ->
  exists before after,
    page.find_first needle hay = Some (before, after) /\
    hay = before +:+ needle +:+ after /\
    forall b' a', hay = b' +:+ needle +:+ a' -> String.length before <= String.length b'.
Proof.
  induction hay as [|c hay IH]; cbn [includes page.find_first]; intros Hin.
  - rewrite orb_false_r in Hin. rewrite Hin.
    exists "", (page.drop_chars (String.length needle) "").
    split; [reflexivity|]. split; [now apply prefix_split | intros; simpl; lia].
  - destruct (String.prefix needle (String c hay)) eqn:Hp.
    + exists "", (page.drop_chars (String.length needle) (String c hay)).
      split; [reflexivity|]. split; [now apply prefix_split | intros; simpl; lia].
    + destruct (IH Hin) as (before & after & -> & -> & Hmin).
      exists (String c before), after. split; [reflexivity|]. split; [reflexivity|].
      intros b' a' Heq. destruct b' as [|c' b'].
      * change ("" +:+ needle +:+ a') with (needle +:+ a') in Heq.
        rewrite Heq, prefix_append in Hp. discriminate.
      * change (String c' b' +:+ needle +:+ a') with (String c' (b' +:+ needle +:+ a')) in Heq.
        injection Heq as _ Heq. specialize (Hmin _ _ Heq). simpl. lia.
Qed.

Lemma includes_dollar_eq d rest :
  includes "$" (String d rest) = Ascii.eqb d "$" || includes "$" rest.
Proof.
  cbn [includes String.prefix]. f_equal.
  destruct (ascii_dec "$" d) as [<-|Hne].
  - now destruct rest.
  - symmetry. apply Ascii.eqb_neq. congruence.
Qed.

Lemma includes_dollar_cons d rest :
  includes "$" (String d rest) = false ->
  Ascii.eqb d "$" = false /\ includes "$" rest = false.
Proof. rewrite includes_dollar_eq. now intros ?%orb_false_iff. Qed.

Lemma GetSubstitution_plain matched before after : forall replacement,
  includes "$" replacement = false ->
  page.GetSubstitution matched before after replacement = replacement.
Proof.
  induction replacement as [|d rest IH]; [reflexivity|].
  intros [Hd Hrest]%includes_dollar_cons. cbn [page.GetSubstitution].
  rewrite Hd. now rewrite (IH Hrest).
Qed.

Lemma includes_dollar_app a b :
  includes "$" a = false -> includes "$" b = false -> includes "$" (a +:+ b) = false.
Proof.
  induction a as [|c a IH]; [trivial|].
  intros [Hc Ha]%includes_dollar_cons Hb.
  change (String c a +:+ b) with (String c (a +:+ b)).
  now rewrite includes_dollar_eq, Hc, (IH Ha Hb).
Qed.

Lemma content_without_dollar tp bag :
  includes "$" tp = false ->
  includes "$" (page.template_undefined bag) = false ->
  includes "$" (page.content tp bag) = false.
Proof.
  intros Htp Hbag. unfold page.content.
  repeat (apply includes_dollar_app; [first [assumption | reflexivity]|]).
  reflexivity.
Qed.

Section PageChunk.
Context `{Collaborators}.

(** X14: a page chunk is returned as it is when there is no active
    transaction, and also when it has no [<head>] tag: nothing is added
    anywhere else. *)
Theorem page_without_head_is_unchanged
        (activeTransaction : option page.ActiveTransaction) (html : string) :
  activeTransaction = None \/ includes "<head>" html = false ->
  page.transformPageChunk activeTransaction html = html.
Proof.
  intros [->|Hno]; [reflexivity|].
  destruct activeTransaction as [tx|]; [|reflexivity].
  unfold page.transformPageChunk, page.replace.
  now rewrite (find_first_none _ _ Hno).
Qed.

(** X15: with an active transaction, a chunk that has a [<head>] tag gets
    the two [<meta>] tags right after the first such tag, and is otherwise
    unchanged: the text before the first [<head>] and the text after it are
    kept as they are.  The baggage tag carries the text [undefined] when
    the sampling context serializes to nothing.  This holds when neither
    the traceparent nor the baggage contains a dollar sign, which
    [String.prototype.replace] would read as a replacement pattern. *)
Theorem page_gets_meta_tags_after_first_head
        (transaction : page.ActiveTransaction) (html : string) :
  let traceparentData := page.toTraceparent transaction in
  let baggage :=
    dynamicSamplingContextToSentryBaggageHeader
      (page.getDynamicSamplingContext transaction) in
  includes "<head>" html = true ->
  includes "$" traceparentData = false ->
  includes "$" (default "undefined" baggage) = false ->
  exists before after,
    html = before +:+ "<head>" +:+ after /\
    (forall b' a', html = b' +:+ "<head>" +:+ a' ->
                   String.length before <= String.length b') /\
    page.transformPageChunk (Some transaction) html
    = before +:+ page.content traceparentData baggage +:+ after.
Proof.
  intros traceparentData baggage Hhead Htp Hbag.
  destruct (find_first_some "<head>" html Hhead) as (before & after & Hfind & Heq & Hmin).
  exists before, after. split; [assumption|]. split; [assumption|].
  unfold page.transformPageChunk, page.replace. rewrite Hfind.
  fold traceparentData. fold baggage.
  now rewrite GetSubstitution_plain by now apply content_without_dollar.
Qed.

End PageChunk.

Lemma page_without_head_is_unchanged_witness :
  @page.transformPageChunk exampleCollaborators
    (Some {| page.toTraceparent := "12312012123120121231201212312012-1121201211212012-1";
             page.getDynamicSamplingContext := ∅ |})
    "<body><p>chunk</p></body>"
  = "<body><p>chunk</p></body>".
Proof.
  apply (@page_without_head_is_unchanged exampleCollaborators).
  right. vm_compute. reflexivity.
Defined.

Lemma page_gets_meta_tags_after_first_head_witness :
  let transaction :=
    {| page.toTraceparent := "12312012123120121231201212312012-1121201211212012-1";
       page.getDynamicSamplingContext := ∅ |} in
  exists before after,
    "<html><head><title>t</title></head></html>" = before +:+ "<head>" +:+ after /\
    @page.transformPageChunk exampleCollaborators (Some transaction)
      "<html><head><title>t</title></head></html>"
    = before +:+
      page.content "12312012123120121231201212312012-1121201211212012-1" None +:+
      after.
Proof.
  intros transaction.
  destruct (@page_gets_meta_tags_after_first_head exampleCollaborators transaction
              "<html><head><title>t</title></head></html>")
    as (before & after & Heq & _ & Hres); [vm_compute; reflexivity ..|].
  exists before, after. split; [exact Heq | exact Hres].
Defined.

(* ===================================================================== *)
(** * Partial and unusual headers                                        *)
(* ===================================================================== *)

(** X16: the hyphens of a header are optional, and so is each part.  A
    header with the two ids and the flag written without hyphens parses to
    the same data as the one with hyphens, and 16 hexadecimal digits alone
    are read as a parent span id without a trace id. *)
Theorem extract_accepts_missing_hyphens_and_parts (t p : list ascii) (sampled : bool) :
  length t = 32 -> forallb hex t = true ->
  length p = 16 -> forallb hex p = true ->
  extractTraceparentData
    (string_of_list_ascii t +:+ string_of_list_ascii p +:+ (if sampled then "1" else "0"))
  = Some {| traceId := Some (string_of_list_ascii t);
            parentSampled := Some sampled;
            parentSpanId := Some (string_of_list_ascii p) |} /\
  extractTraceparentData (string_of_list_ascii p)
  = Some {| traceId := None;
            parentSampled := None;
            parentSpanId := Some (string_of_list_ascii p) |}.
Proof.
  intros Hlt Ht Hlp Hp. split.
  - rewrite (extract_of_skeleton _ (Some t) (Some p)
               (Some [if sampled then "1" else "0"]%char)).
    + unfold data_of. destruct sampled; reflexivity.
    + destruct t; discriminate.
    + exists [], [], [], [].
      rewrite !list_ascii_of_string_app, !list_ascii_of_string_of_list_ascii.
      split; [destruct sampled; reflexivity|].
      repeat split; try assumption; try (now left).
      now destruct sampled.
  - rewrite (extract_of_skeleton _ None (Some p) None).
    + reflexivity.
    + destruct p; discriminate.
    + exists [], [], [], [].
      rewrite list_ascii_of_string_of_list_ascii.
      split; [simpl; now rewrite app_nil_r|].
      repeat split; try assumption; now left.
Qed.

Lemma extract_accepts_missing_hyphens_and_parts_witness :
  extractTraceparentData "1121201211212012"
  = Some {| traceId := None; parentSampled := None;
            parentSpanId := Some "1121201211212012" |}.
Proof.
  apply (extract_accepts_missing_hyphens_and_parts
           (list_ascii_of_string "12312012123120121231201212312012")
           (list_ascii_of_string "1121201211212012") true);
    vm_compute; reflexivity.
Defined.

(** X17: a header that consists of spaces and tabs only is not treated like
    the empty header: the empty string gives no data, while every non-empty
    string of blanks gives a record in which all three fields are absent. *)
Theorem extract_of_blank_header (s : string) :
  s <> "" ->
  forallb blank (list_ascii_of_string s) = true ->
  extractTraceparentData s
  = Some {| traceId := None; parentSampled := None; parentSpanId := None |} /\
  extractTraceparentData "" = None.
Proof.
  intros Hne Hblank. split; [|reflexivity].
  rewrite (extract_of_skeleton s None None None Hne); [reflexivity|].
  exists (list_ascii_of_string s), [], [], [].
  split; [simpl; now rewrite app_nil_r|].
  repeat split; solve [assumption | now left].
Qed.

Lemma extract_of_blank_header_witness :
  extractTraceparentData "   "
  = Some {| traceId := None; parentSampled := None; parentSpanId := None |}.
Proof.
  apply (extract_of_blank_header "   "); [discriminate | vm_compute; reflexivity].
Defined.
